(** * dentabase: restoring the document store from a snapshot

    A shallow embedding of [loadBackup] and [getTimestamp] of the
    backup script, in its two revisions ([src/scripts/backup.js] and
    the one with update detection), followed by the properties of the
    restore reconciliation that the specification states.  A document
    is an object of structured values; the file system, the console and
    the store are seen through the calls that the script makes on
    them. *)

From Stdlib Require Import List String Ascii ZArith Bool Lia.
From Stdlib Require Import Decimal DecimalString DecimalZ.
Import ListNotations.

Local Open Scope list_scope.
Local Open Scope string_scope.

(* ================================================================== *)
(** ** Structured values *)

(** The values of a document: null, booleans, numbers, strings, arrays
    and objects.  This is what [fs.readJson] returns, and what
    [find().toArray()] returns for a collection that holds no value of
    a store-native type (object id, date, binary).  Numbers are
    integers, which JavaScript prints in plain decimal digits as long
    as it holds them exactly; an object keeps its own enumerable keys
    in enumeration order. *)
#[warnings="-register-all"]
Inductive value : Type :=
| JNull
| JBool (b : bool)
| JNum (n : Z)
| JStr (s : string)
| JArr (l : list value)
| JObj (o : list (string * value)).

(** A document is an object. *)
Definition doc : Type := list (string * value).

(** Characters that cannot be written inside a literal. *)
Definition dquote : ascii := "034"%char.
Definition bslash : ascii := "092"%char.

Definition str1 (c : ascii) : string := String c EmptyString.

(** [String(n)] for an integer [n]. *)
Definition Number_toString (n : Z) : string :=
  NilZero.string_of_int (Z.to_int n).

(** [v.toString()] for a value that is neither null nor undefined.
    [Array.prototype.toString] joins with a comma and renders a null
    element as the empty string, which is the only way [JNull] is
    reached here. *)
Fixpoint toString (v : value) : string :=
  match v with
  | JNull => EmptyString
  | JBool b => if b then "true" else "false"
  | JNum n => Number_toString n
  | JStr s => s
  | JArr l => String.concat "," (map toString l)
  | JObj _ => "[object Object]"
  end.

(** *** JSON.stringify *)

Definition hexDigit (n : N) : ascii :=
  nth (N.to_nat n) (list_ascii_of_string "0123456789abcdef") "0"%char.

(** QuoteJSONString on one code unit. *)
Definition quoteChar (c : ascii) : string :=
  let n := N_of_ascii c in
  if (n =? 8)%N then String bslash "b"
  else if (n =? 9)%N then String bslash "t"
  else if (n =? 10)%N then String bslash "n"
  else if (n =? 12)%N then String bslash "f"
  else if (n =? 13)%N then String bslash "r"
  else if (n =? 34)%N then String bslash (str1 dquote)
  else if (n =? 92)%N then String bslash (str1 bslash)
  else if (n <? 32)%N then
    String bslash ("u00" ++ String (hexDigit (n / 16)) (str1 (hexDigit (n mod 16))))
  else str1 c.

Fixpoint quoteBody (s : string) : string :=
  match s with
  | EmptyString => EmptyString
  | String c s' => quoteChar c ++ quoteBody s'
  end.

Definition quote (s : string) : string :=
  String dquote (quoteBody s ++ str1 dquote).

(** [JSON.stringify(v)] without indentation. *)
Fixpoint JSON_stringify (v : value) : string :=
  match v with
  | JNull => "null"
  | JBool b => if b then "true" else "false"
  | JNum n => Number_toString n
  | JStr s => quote s
  | JArr l => "[" ++ String.concat "," (map JSON_stringify l) ++ "]"
  | JObj o =>
      "{" ++ String.concat ","
               (map (fun kv : string * value =>
                       let (k, x) := kv in
                       quote k ++ ":" ++ JSON_stringify x) o)
          ++ "}"
  end.

(** *** Documents *)

(** [d[k]]: [None] is [undefined]. *)
Definition getField (k : string) (d : doc) : option value :=
  match find (fun kv => fst kv =? k) d with
  | Some kv => Some (snd kv)
  | None => None
  end.

(** [doc._id] *)
Definition doc_id (d : doc) : option value := getField "_id" d.

(** [x?.toString()]: the optional chain stops on null and on
    undefined. *)
Definition optToString (x : option value) : option string :=
  match x with
  | None => None
  | Some JNull => None
  | Some v => Some (toString v)
  end.

(** [doc._id?.toString()] *)
Definition idString (d : doc) : option string := optToString (doc_id d).

(** [Boolean(x)] for [x] a string or undefined. *)
Definition Boolean (x : option string) : bool :=
  match x with
  | None => false
  | Some EmptyString => false
  | Some _ => true
  end.

(** [===] on strings-or-undefined. *)
Definition strictEq (x y : option string) : bool :=
  match x, y with
  | None, None => true
  | Some a, Some b => (a =? b)
  | _, _ => false
  end.

(** [ids.includes(x)] *)
Definition includes (ids : list (option string)) (x : option string) : bool :=
  existsb (fun y => strictEq y x) ids.

(** [data.map(doc => doc._id?.toString()).filter(Boolean)] *)
Definition idsOf (data : list doc) : list (option string) :=
  filter Boolean (map idString data).

(** [const { _id, ...fields } = doc] *)
Definition restFields (d : doc) : doc :=
  filter (fun kv => negb (fst kv =? "_id")) d.

(** [JSON.stringify(doc)] *)
Definition stringifyDoc (d : doc) : string := JSON_stringify (JObj d).

(* ================================================================== *)
(** ** Snapshot names *)

(** The fields of [new Date()] that [getTimestamp] reads, in local
    time; [getMonth] counts from zero. *)
Record LocalTime : Type := {
  getFullYear : Z;
  getMonth : Z;
  getDate : Z;
  getHours : Z;
  getMinutes : Z;
  getSeconds : Z
}.

Fixpoint repeatChar (n : nat) (c : ascii) : string :=
  match n with
  | O => EmptyString
  | S n' => String c (repeatChar n' c)
  end.

(** [s.padStart(n, c)] for a one-character filler. *)
Definition padStart (n : nat) (c : ascii) (s : string) : string :=
  repeatChar (n - String.length s) c ++ s.

Definition getTimestamp (now : LocalTime) : string :=
  let mm := padStart 2 "0" (Number_toString (getMonth now + 1)) in
  let dd := padStart 2 "0" (Number_toString (getDate now)) in
  let yyyy := Number_toString (getFullYear now) in
  let hh := padStart 2 "0" (Number_toString (getHours now)) in
  let min := padStart 2 "0" (Number_toString (getMinutes now)) in
  let ss := padStart 2 "0" (Number_toString (getSeconds now)) in
  "backup_" ++ mm ++ dd ++ yyyy ++ "_" ++ hh ++ min ++ ss.

(** Calendar fields of a local time that [new Date()] can return. *)
Definition validTime (t : LocalTime) : bool :=
  ((0 <=? getMonth t) && (getMonth t <=? 11) &&
   (1 <=? getDate t) && (getDate t <=? 31) &&
   (1000 <=? getFullYear t) && (getFullYear t <=? 9999) &&
   (0 <=? getHours t) && (getHours t <=? 23) &&
   (0 <=? getMinutes t) && (getMinutes t <=? 59) &&
   (0 <=? getSeconds t) && (getSeconds t <=? 59))%Z.

(** [a] is strictly earlier than [b]. *)
Definition earlier (a b : LocalTime) : bool :=
  let key t := [getFullYear t; getMonth t; getDate t;
                getHours t; getMinutes t; getSeconds t] in
  (fix lex (x y : list Z) : bool :=
     match x, y with
     | p :: x', q :: y' => (p <? q)%Z || ((p =? q)%Z && lex x' y')
     | _, _ => false
     end) (key a) (key b).

(** [names.sort()] with the default comparator, which orders strings
    by code unit. *)
Fixpoint insertSorted (x : string) (l : list string) : list string :=
  match l with
  | [] => [x]
  | y :: l' => if String.leb x y then x :: l else y :: insertSorted x l'
  end.

Definition sort (l : list string) : list string :=
  fold_right insertSorted [] l.

(* ================================================================== *)
(** ** Paths *)

(** [path.join(dir, name)] for a directory and a plain entry name. *)
Definition path_join (dir name : string) : string := dir ++ "/" ++ name.

Fixpoint startsWith (p s : string) : bool :=
  match p, s with
  | EmptyString, _ => true
  | String a p', String b s' => Ascii.eqb a b && startsWith p' s'
  | String _ _, EmptyString => false
  end.

Fixpoint endsWithRev (p s : list ascii) : bool :=
  match p, s with
  | [], _ => true
  | a :: p', b :: s' => Ascii.eqb a b && endsWithRev p' s'
  | _ :: _, [] => false
  end.

(** Characters after the last dot, reversed, and whether a dot with
    something before it was met. *)
Fixpoint extRev (r : list ascii) : option (list ascii) :=
  match r with
  | [] => None
  | c :: r' =>
      if Ascii.eqb c "." then
        match r' with [] => None | _ :: _ => Some [c] end
      else
        match extRev r' with
        | Some e => Some (c :: e)
        | None => None
        end
  end.

(** [path.extname(file)] for a plain entry name: from the last dot to
    the end, empty when there is no dot or the only dot leads the
    name. *)
Definition path_extname (file : string) : string :=
  match extRev (List.rev (list_ascii_of_string file)) with
  | Some e => string_of_list_ascii (List.rev e)
  | None => EmptyString
  end.

(** [path.basename(file, ext)] for a plain entry name. *)
Definition path_basename (file ext : string) : string :=
  let f := list_ascii_of_string file in
  let e := list_ascii_of_string ext in
  if endsWithRev (List.rev e) (List.rev f) && negb (file =? ext)
  then string_of_list_ascii (firstn (List.length f - List.length e) f)
  else file.

(* ================================================================== *)
(** ** Collaborators *)

(** A promise settles to a value or to an error. *)
Inductive outcome (A : Type) : Type :=
| Resolved (a : A)
| Rejected (e : string).
Arguments Resolved {A} a.
Arguments Rejected {A} e.

(** A directory entry as [readdir] with [withFileTypes] returns it. *)
Record Dirent : Type := { name : string; isDirectory : bool }.

(** The modules the script requires: the two calls of fs-extra it
    makes on restore, [ObjectId.isValid] of mongodb, and what
    [path.resolve('./backup')] gives in the current working
    directory. *)
Record Collaborators : Type := {
  fs_readdir : string -> outcome (list Dirent);
  fs_readJson : string -> outcome (list doc);
  ObjectId_isValid : value -> bool;
  path_resolve_backup : string
}.

(** The filter of an [updateOne]: [new ObjectId(_id)], or [_id] as it
    is. *)
Inductive queryId : Type :=
| QObjectId (v : value)
| QPlain (v : option value).

(** What the script does to the outside: lines on the console and
    calls on a collection of [mongoose.connection.db]. *)
Inductive event : Type :=
| ConsoleLog (msg : string)
| Find (coll : string)
| InsertMany (coll : string) (docs : list doc)
| DeleteMany (coll : string) (ids : list (option value))
| UpdateOne (coll : string) (q : queryId) (fields : doc).

(** The outcome of a run: how the promise settled, the live store it
    left behind and what it did, in order. *)
Record Run : Type := {
  result : outcome unit;
  finalDb : string -> list doc;
  trace : list event
}.

(* ================================================================== *)
(** ** The document store *)

(** The live store: the documents of each named collection, as
    [find().toArray()] lists them.  Its documents hold structured values
    only, and its operations always succeed. *)
Definition Store : Type := string -> list doc.

Definition setCollection (db : Store) (coll : string) (docs : list doc) : Store :=
  fun c => if c =? coll then docs else db c.

(** Equality of stored values. *)
Fixpoint value_eqb (a b : value) : bool :=
  match a, b with
  | JNull, JNull => true
  | JBool x, JBool y => Bool.eqb x y
  | JNum x, JNum y => (x =? y)%Z
  | JStr x, JStr y => (x =? y)
  | JArr l, JArr m =>
      (fix go (l m : list value) : bool :=
         match l, m with
         | [], [] => true
         | x :: l', y :: m' => value_eqb x y && go l' m'
         | _, _ => false
         end) l m
  | JObj o, JObj p =>
      (fix go (o p : list (string * value)) : bool :=
         match o, p with
         | [], [] => true
         | (k, x) :: o', (k', y) :: p' => (k =? k') && value_eqb x y && go o' p'
         | _, _ => false
         end) o p
  | _, _ => false
  end.

(** A query on [_id] treats a missing field as null. *)
Definition idMatches (stored query : option value) : bool :=
  match stored, query with
  | None, None | None, Some JNull | Some JNull, None => true
  | Some a, Some b => value_eqb a b
  | _, _ => false
  end.

(** [{ _id: { $in: ids } }] *)
Definition matchesIn (ids : list (option value)) (d : doc) : bool :=
  existsb (idMatches (doc_id d)) ids.

(** [{ _id: q }]: an object id equals no structured value. *)
Definition matchesQuery (q : queryId) (d : doc) : bool :=
  match q with
  | QObjectId _ => false
  | QPlain x => idMatches (doc_id d) x
  end.

(** [$set] of one field: replaced in place, or added at the end. *)
Fixpoint setField (k : string) (v : value) (d : doc) : doc :=
  match d with
  | [] => [(k, v)]
  | (k', v') :: d' =>
      if k' =? k then (k, v) :: d' else (k', v') :: setField k v d'
  end.

(** [{ $set: fields }] for field names without a dot. *)
Definition applySet (fields : doc) (d : doc) : doc :=
  fold_left (fun acc kv => setField (fst kv) (snd kv) acc) fields d.

Fixpoint updateFirst (p : doc -> bool) (f : doc -> doc) (l : list doc) : list doc :=
  match l with
  | [] => []
  | d :: l' => if p d then f d :: l' else d :: updateFirst p f l'
  end.

(** The effect of one event on a collection's documents. *)
Definition applyToDocs (e : event) (docs : list doc) : list doc :=
  match e with
  | ConsoleLog _ | Find _ => docs
  | InsertMany _ ds => (docs ++ ds)%list
  | DeleteMany _ ids => filter (fun d => negb (matchesIn ids d)) docs
  | UpdateOne _ q fields => updateFirst (matchesQuery q) (applySet fields) docs
  end.

Definition collectionOf (e : event) : option string :=
  match e with
  | ConsoleLog _ => None
  | Find c | InsertMany c _ | DeleteMany c _ | UpdateOne c _ _ => Some c
  end.

Definition applyEvent (db : Store) (e : event) : Store :=
  match collectionOf e with
  | Some c => setCollection db c (applyToDocs e (db c))
  | None => db
  end.

Definition applyEvents (db : Store) (es : list event) : Store :=
  fold_left applyEvent es db.

Definition lengthString {A : Type} (l : list A) : string :=
  Number_toString (Z.of_nat (List.length l)).

(** [if (!baseDir) baseDir = path.resolve('./backup')] *)
Definition orDefault (env : Collaborators) (baseDir : option string) : string :=
  match baseDir with
  | Some (String c s) => String c s
  | _ => path_resolve_backup env
  end.

(** [entries.filter(...).map(dirent => dirent.name)] *)
Definition backupDirsOf (entries : list Dirent) : list string :=
  map name
    (filter (fun dirent => isDirectory dirent && startsWith "backup_" (name dirent))
       entries).

(* ================================================================== *)
(** ** [src/scripts/backup.js] *)

Module ScriptsBackup.

Section Restore.
Variable env : Collaborators.

Definition toInsert (newData existingData : list doc) : list doc :=
  let existingIds := idsOf existingData in
  filter (fun doc => negb (includes existingIds (idString doc))) newData.

Definition toDelete (newData existingData : list doc) : list doc :=
  let newIds := idsOf newData in
  filter (fun doc => negb (includes newIds (idString doc))) existingData.

(** The body of the loop once both document sets are read. *)
Definition reconcile (collectionName : string)
    (newData existingData : list doc) : list event :=
  let toInsert := toInsert newData existingData in
  let toDelete := toDelete newData existingData in
  if (List.length toInsert =? 0)%nat && (List.length toDelete =? 0)%nat then
    [ConsoleLog ("Collection '" ++ collectionName ++ "' is already up-to-date")]
  else
    ((if (0 <? List.length toInsert)%nat
      then [InsertMany collectionName toInsert] else []) ++
     (if (0 <? List.length toDelete)%nat
      then [DeleteMany collectionName (map doc_id toDelete)] else []) ++
     [ConsoleLog ("Updated collection '" ++ collectionName ++ "': inserted "
                    ++ lengthString toInsert ++ ", deleted "
                    ++ lengthString toDelete)])%list.

(** [for (let file of files)] *)
Fixpoint forFiles (backupDir : string) (files : list string) (db : Store) : Run :=
  match files with
  | [] => {| result := Resolved tt; finalDb := db; trace := [] |}
  | file :: rest =>
      if negb (path_extname file =? ".json") then forFiles backupDir rest db
      else
        let collectionName := path_basename file ".json" in
        match fs_readJson env (path_join backupDir file) with
        | Rejected e => {| result := Rejected e; finalDb := db; trace := [] |}
        | Resolved newData =>
            let existingData := db collectionName in
            let es := (Find collectionName
                         :: reconcile collectionName newData existingData)%list in
            let r := forFiles backupDir rest (applyEvents db es) in
            {| result := result r; finalDb := finalDb r;
               trace := (es ++ trace r)%list |}
        end
  end.

Definition loadBackup (baseDir : option string) (db : Store) : Run :=
  let baseDir := orDefault env baseDir in
  match fs_readdir env baseDir with
  | Rejected e => {| result := Rejected e; finalDb := db; trace := [] |}
  | Resolved entries =>
      let backupDirs := backupDirsOf entries in
      if (List.length backupDirs =? 0)%nat then
        {| result := Resolved tt; finalDb := db;
           trace := [ConsoleLog "No backups found."] |}
      else
        let backupDirs := sort backupDirs in
        let backupDir := path_join baseDir (last backupDirs EmptyString) in
        let hello := ConsoleLog ("Loading latest backup: " ++ backupDir) in
        match fs_readdir env backupDir with
        | Rejected e => {| result := Rejected e; finalDb := db; trace := [hello] |}
        | Resolved files =>
            let r := forFiles backupDir (map name files) db in
            {| result := result r; finalDb := finalDb r;
               trace := hello :: trace r |}
        end
  end.

End Restore.

End ScriptsBackup.

(* ================================================================== *)
(** ** The revision with update detection ([src/unnamed/part_000]) *)

Module Part000.

Section Restore.
Variable env : Collaborators.

Definition toInsert (newData existingData : list doc) : list doc :=
  let existingIds := idsOf existingData in
  filter (fun doc => negb (includes existingIds (idString doc))) newData.

Definition toDelete (newData existingData : list doc) : list doc :=
  let newIds := idsOf newData in
  filter (fun doc => negb (includes newIds (idString doc))) existingData.

(** [existingData.find(e => e._id?.toString() === newDoc._id?.toString())] *)
Definition findMatch (existingData : list doc) (newDoc : doc) : option doc :=
  find (fun e => strictEq (idString e) (idString newDoc)) existingData.

Definition toUpdate (newData existingData : list doc) : list doc :=
  filter (fun newDoc =>
            match findMatch existingData newDoc with
            | Some m => negb (stringifyDoc m =? stringifyDoc newDoc)
            | None => false
            end) newData.

(** [ObjectId.isValid(_id) ? new ObjectId(_id) : _id] *)
Definition queryIdOf (_id : option value) : queryId :=
  match _id with
  | Some v => if ObjectId_isValid env v then QObjectId v else QPlain (Some v)
  | None => QPlain None
  end.

(** [collection.updateOne({ _id: queryId }, { $set: fields })] *)
Definition updateOf (collectionName : string) (doc : doc) : event :=
  UpdateOne collectionName (queryIdOf (doc_id doc)) (restFields doc).

(** The body of the loop once both document sets are read. *)
Definition reconcile (collectionName : string)
    (newData existingData : list doc) : list event :=
  let toInsert := toInsert newData existingData in
  let toDelete := toDelete newData existingData in
  let toUpdate := toUpdate newData existingData in
  if (List.length toInsert =? 0)%nat && (List.length toDelete =? 0)%nat
     && (List.length toUpdate =? 0)%nat then
    [ConsoleLog ("Collection '" ++ collectionName ++ "' is already up-to-date")]
  else
    ((if (0 <? List.length toInsert)%nat
      then [InsertMany collectionName toInsert] else []) ++
     (if (0 <? List.length toDelete)%nat
      then [DeleteMany collectionName (map doc_id toDelete)] else []) ++
     map (updateOf collectionName) toUpdate ++
     [ConsoleLog ("Updated '" ++ collectionName ++ "': inserted "
                    ++ lengthString toInsert ++ ", updated "
                    ++ lengthString toUpdate ++ ", deleted "
                    ++ lengthString toDelete)])%list.

(** [for (let file of files)] *)
Fixpoint forFiles (backupDir : string) (files : list string) (db : Store) : Run :=
  match files with
  | [] => {| result := Resolved tt; finalDb := db; trace := [] |}
  | file :: rest =>
      if negb (path_extname file =? ".json") then forFiles backupDir rest db
      else
        let collectionName := path_basename file ".json" in
        match fs_readJson env (path_join backupDir file) with
        | Rejected e => {| result := Rejected e; finalDb := db; trace := [] |}
        | Resolved newData =>
            let existingData := db collectionName in
            let es := (Find collectionName
                         :: reconcile collectionName newData existingData)%list in
            let r := forFiles backupDir rest (applyEvents db es) in
            {| result := result r; finalDb := finalDb r;
               trace := (es ++ trace r)%list |}
        end
  end.

Definition loadBackup (baseDir : option string) (db : Store) : Run :=
  let baseDir := orDefault env baseDir in
  match fs_readdir env baseDir with
  | Rejected e => {| result := Rejected e; finalDb := db; trace := [] |}
  | Resolved entries =>
      let backupDirs := backupDirsOf entries in
      if (List.length backupDirs =? 0)%nat then
        {| result := Resolved tt; finalDb := db;
           trace := [ConsoleLog "No backups found."] |}
      else
        let backupDirs := sort backupDirs in
        let backupDir := path_join baseDir (last backupDirs EmptyString) in
        let hello := ConsoleLog ("Loading latest backup: " ++ backupDir) in
        match fs_readdir env backupDir with
        | Rejected e => {| result := Rejected e; finalDb := db; trace := [hello] |}
        | Resolved files =>
            let r := forFiles backupDir (map name files) db in
            {| result := result r; finalDb := finalDb r;
               trace := hello :: trace r |}
        end
  end.

End Restore.

End Part000.

(* ================================================================== *)
(** ** Vocabulary of the statements *)

(** The document carries identifier [i], in string form. *)
Definition hasId (i : string) (d : doc) : bool :=
  strictEq (idString d) (Some i).

(** The value a query filter was built from. *)
Definition querySource (q : queryId) : option value :=
  match q with
  | QObjectId v => Some v
  | QPlain x => x
  end.

(** The event is a targeted update for identifier [i]. *)
Definition updatesId (i : string) (e : event) : bool :=
  match e with
  | UpdateOne _ q _ => strictEq (optToString (querySource q)) (Some i)
  | _ => false
  end.

Definition isInsertMany (e : event) : bool :=
  match e with InsertMany _ _ => true | _ => false end.

Definition isDeleteMany (e : event) : bool :=
  match e with DeleteMany _ _ => true | _ => false end.

Definition isUpdateOne (e : event) : bool :=
  match e with UpdateOne _ _ _ => true | _ => false end.

(** Bulk insert or bulk delete. *)
Definition isBulkWrite (e : event) : bool := isInsertMany e || isDeleteMany e.

(** Any call that changes the store. *)
Definition isWrite (e : event) : bool := isBulkWrite e || isUpdateOne e.

(** The documents of a collection after the store has served the
    events of one pass over it. *)
Definition runOn (es : list event) (docs : list doc) : list doc :=
  fold_left (fun acc e => applyToDocs e acc) es docs.

(** The invariant of a collection: every document has an identifier
    with a non-empty string form, and no two share one. *)
Definition wellKeyed (data : list doc) : Prop :=
  NoDup (map idString data) /\
  forall d, In d data -> Boolean (idString d) = true.

(** The live documents once the bulk insert and the bulk delete of a
    pass are served. *)
Definition afterBulk (newData existingData : list doc) : list doc :=
  filter (fun d =>
            negb (matchesIn (map doc_id (Part000.toDelete newData existingData)) d))
         (existingData ++ Part000.toInsert newData existingData)%list.

(* ================================================================== *)
(** ** Fixtures *)

(** The live store and the snapshot directory that the test suite
    mocks. *)
Definition johnDoe (age : Z) : doc :=
  [("_id", JStr "1"); ("name", JStr "John Doe"); ("age", JNum age)].

Definition janeSmith : doc :=
  [("_id", JStr "2"); ("name", JStr "Jane Smith"); ("age", JNum 28)].

Definition appointmentA1 : doc :=
  [("_id", JStr "A1"); ("patientId", JStr "1"); ("date", JStr "2025-10-28")].

Definition mockDb : Store :=
  fun c => if c =? "patients" then [johnDoe 25]
           else if c =? "appointments" then [appointmentA1]
           else [].

Definition mockBaseDir : string := "C:/temp/backups".

Definition mockEnv (roots : list Dirent) (patients : outcome (list doc))
  : Collaborators :=
  {| fs_readdir := fun d =>
       if d =? mockBaseDir then Resolved roots
       else Resolved [ {| name := "patients.json"; isDirectory := false |};
                       {| name := "appointments.json"; isDirectory := false |} ];
     fs_readJson := fun f =>
       if path_extname f =? ".json" then
         if endsWithRev (List.rev (list_ascii_of_string "patients.json"))
              (List.rev (list_ascii_of_string f))
         then patients else Resolved [appointmentA1]
       else Rejected "ENOENT";
     ObjectId_isValid := fun _ => false;
     path_resolve_backup := "/srv/app/backup" |}.

Definition mockRoot : list Dirent :=
  [ {| name := "backup_10282025_023811"; isDirectory := true |} ].

(** The last second of 2024 and the first of 2025. *)
Definition newYearsEve : LocalTime :=
  {| getFullYear := 2024; getMonth := 11; getDate := 31;
     getHours := 23; getMinutes := 59; getSeconds := 59 |}.

Definition newYearsDay : LocalTime :=
  {| getFullYear := 2025; getMonth := 0; getDate := 1;
     getHours := 0; getMinutes := 0; getSeconds := 0 |}.

Definition twoYears : list Dirent :=
  [ {| name := getTimestamp newYearsEve; isDirectory := true |};
    {| name := getTimestamp newYearsDay; isDirectory := true |} ].

(** A document without an identifier field. *)
Definition anonymous : doc := [("name", JStr "Jane Smith")].

(** John's document with the identifier written last. *)
Definition johnIdLast : doc :=
  [("name", JStr "John Doe"); ("age", JNum 25); ("_id", JStr "1")].

(** A live patient that the snapshot does not hold. *)
Definition maryJones : doc :=
  [("_id", JStr "3"); ("name", JStr "Mary Jones"); ("age", JNum 41)].

(** John's live document with a field that the snapshot lacks. *)
Definition johnWithNickname : doc :=
  [("_id", JStr "1"); ("name", JStr "John Doe"); ("age", JNum 25);
   ("nickname", JStr "Johnny")].

(* ================================================================== *)
(** ** Statements of the specification that the code does not meet *)

(** No document without an identifier field is classified. *)
Definition excludesDocumentsWithoutIdentifier : Prop :=
  forall (newData existingData : list doc) (d : doc),
    doc_id d = None ->
    In d newData \/ In d existingData ->
    ~ In d (Part000.toInsert newData existingData) /\
    ~ In d (Part000.toUpdate newData existingData) /\
    ~ In d (Part000.toDelete newData existingData).

(** A document on both sides with the same fields besides the
    identifier is not classified. *)
Definition skipsEqualContent : Prop :=
  forall (newData existingData : list doc) (imported live : doc) (i : string),
    filter (hasId i) newData = [imported] ->
    filter (hasId i) existingData = [live] ->
    restFields imported = restFields live ->
    ~ In imported (Part000.toInsert newData existingData) /\
    ~ In imported (Part000.toUpdate newData existingData) /\
    ~ In live (Part000.toDelete newData existingData).

(** A second pass over what the first pass left changes nothing. *)
Definition idempotent : Prop :=
  forall (env : Collaborators) (coll : string) (newData existingData : list doc),
    wellKeyed newData ->
    wellKeyed existingData ->
    filter isWrite
      (Part000.reconcile env coll newData
         (runOn (Part000.reconcile env coll newData existingData) existingData))
    = [].

(* ================================================================== *)
(** ** Two-digit fields *)

Definition twoDigits : list Z := map Z.of_nat (seq 0 100).

(** [String(n).padStart(2, '0')] *)
Definition pad2 (n : Z) : string := padStart 2 "0" (Number_toString n).

(** Padded to two characters, the numbers below one hundred sort as
    they count. *)
Definition twoDigitsOrdered : bool :=
  forallb (fun n =>
             (String.length (pad2 n) =? 2)%nat &&
             forallb (fun m => implb (n <? m)%Z (String.ltb (pad2 n) (pad2 m)))
                     twoDigits)
          twoDigits.

(* ================================================================== *)
(** ** Reading a serialization back *)

(** A character of a rendered integer. *)
Definition isNumChar (c : ascii) : bool :=
  let n := N_of_ascii c in
  ((n =? 45) || ((48 <=? n) && (n <=? 57)))%N.

Fixpoint allNum (s : string) : bool :=
  match s with
  | EmptyString => true
  | String c s' => isNumChar c && allNum s'
  end.

(** A character a serialized value can start with. *)
Definition valueStart (c : ascii) : bool :=
  isNumChar c || Ascii.eqb c "n" || Ascii.eqb c "t" || Ascii.eqb c "f"
  || Ascii.eqb c dquote || Ascii.eqb c "[" || Ascii.eqb c "{".

(** What may follow a serialized value: nothing, or a character that
    does not continue a number. *)
Definition closedTail (r : string) : Prop :=
  match r with
  | EmptyString => True
  | String c _ => isNumChar c = false
  end.

Definition allAscii : list ascii := map ascii_of_nat (seq 0 256).

(** No quoted character is the start of another one's quotation. *)
Definition quoteCharPrefixFree : bool :=
  forallb (fun c =>
             forallb (fun c' =>
                        implb (startsWith (quoteChar c) (quoteChar c'))
                              (Ascii.eqb c c'))
                     allAscii)
          allAscii.

(** No quotation is empty or starts with the closing quote. *)
Definition quoteCharNotQuote : bool :=
  forallb (fun c =>
             match quoteChar c with
             | EmptyString => false
             | String a _ => negb (Ascii.eqb a dquote)
             end)
          allAscii.

(* ================================================================== *)
(** ** The layout of a snapshot name *)

Definition isDigit (c : ascii) : bool :=
  let n := N_of_ascii c in ((48 <=? n) && (n <=? 57))%N.

Fixpoint allDigits (s : string) : bool :=
  match s with
  | EmptyString => true
  | String c s' => isDigit c && allDigits s'
  end.

(** [backup_] followed by eight digits, an underscore and six digits. *)
Definition isSnapshotName (s : string) : bool :=
  startsWith "backup_" s
  && (String.length s =? 22)%nat
  && allDigits (substring 7 8 s)
  && (substring 15 1 s =? "_")
  && allDigits (substring 16 6 s).

(** Padded to two characters, a number below one hundred is two
    digits. *)
Definition twoDigitsShape : bool :=
  forallb (fun n => (String.length (pad2 n) =? 2)%nat && allDigits (pad2 n))
          twoDigits.

Definition fourDigitYears : list Z :=
  map (fun k => 1000 + Z.of_nat k)%Z (seq 0 (90 * 100)).

(** The instant that the test suite freezes the clock at, and the same
    day and hour one year earlier. *)
Definition testDate : LocalTime :=
  {| getFullYear := 2025; getMonth := 9; getDate := 28;
     getHours := 2; getMinutes := 38; getSeconds := 11 |}.

Definition testDate2024 : LocalTime :=
  {| getFullYear := 2024; getMonth := 9; getDate := 28;
     getHours := 2; getMinutes := 38; getSeconds := 11 |}.

(** The order of [sort]: by code unit, the shorter of two strings first
    when it opens the longer. *)
Definition nameLe (a b : string) : Prop := String.leb a b = true.

(** Every name is at most the ones after it. *)
Fixpoint ascending (l : list string) : Prop :=
  match l with
  | [] => True
  | a :: l' => (forall y, In y l' -> nameLe a y) /\ ascending l'
  end.

(* ================================================================== *)
(** ** Taking a snapshot ([saveBackup], the same in both revisions) *)

(** What [saveBackup] takes from outside: the clock that [new Date()]
    reads, the two calls of fs-extra it makes, and the names that
    [listCollections().toArray()] returns. *)
Record SaveCollaborators : Type := {
  clock : LocalTime;
  fs_ensureDir : string -> outcome unit;
  fs_writeJson : string -> list doc -> outcome unit;
  listCollections : list string
}.

(** What a save does to the outside: a line on the console or a call on
    a collection, as on restore, the listing of the collections, or one
    of the two calls on the disk. *)
Inductive saveEvent : Type :=
| OnStore (e : event)
| ListCollections
| EnsureDir (dir : string)
| WriteJson (filePath : string) (data : list doc).

(** How the promise of a save settled, and what it did, in order. *)
Record SaveRun : Type := {
  returned : outcome string;
  saveTrace : list saveEvent
}.

Definition savedLine (coll filePath : string) : string :=
  "Saved collection '" ++ coll ++ "' to " ++ filePath.

Section Save.
Variable senv : SaveCollaborators.

(** [for (let coll of collections) { ... }] *)
Fixpoint forCollections (backupDir : string) (collections : list string)
    (db : Store) : outcome unit * list saveEvent :=
  match collections with
  | [] => (Resolved tt, [])
  | coll :: rest =>
      let data := db coll in
      let filePath := path_join backupDir (coll ++ ".json") in
      match fs_writeJson senv filePath data with
      | Rejected e =>
          (Rejected e, [OnStore (Find coll); WriteJson filePath data])
      | Resolved _ =>
          let r := forCollections backupDir rest db in
          (fst r,
           (OnStore (Find coll) :: WriteJson filePath data
              :: OnStore (ConsoleLog (savedLine coll filePath)) :: snd r)%list)
      end
  end.

Definition saveBackup (baseDir : string) (db : Store) : SaveRun :=
  let timestamp := getTimestamp (clock senv) in
  let backupDir := path_join baseDir timestamp in
  match fs_ensureDir senv backupDir with
  | Rejected e =>
      {| returned := Rejected e; saveTrace := [EnsureDir backupDir] |}
  | Resolved _ =>
      let r := forCollections backupDir (listCollections senv) db in
      match fst r with
      | Rejected e =>
          {| returned := Rejected e;
             saveTrace := (EnsureDir backupDir :: ListCollections :: snd r)%list |}
      | Resolved _ =>
          {| returned := Resolved backupDir;
             saveTrace :=
               (EnsureDir backupDir :: ListCollections :: snd r
                  ++ [OnStore (ConsoleLog ("Backup completed: " ++ backupDir))])%list |}
      end
  end.

End Save.

Definition isWriteJson (e : saveEvent) : bool :=
  match e with WriteJson _ _ => true | _ => false end.

(** The calls that change the live store. *)
Definition changesStore (e : saveEvent) : bool :=
  match e with OnStore ev => isWrite ev | _ => false end.

(** The file that a save writes for a collection. *)
Definition fileOf (backupDir : string) (db : Store) (coll : string) : saveEvent :=
  WriteJson (path_join backupDir (coll ++ ".json")) (db coll).

(** The disk and the store that the save tests mock: the clock is
    frozen, there are two collections, and every write succeeds but the
    one to the file named. *)
Definition mockSaveEnv (dir : outcome unit) (failing : string)
  : SaveCollaborators :=
  {| clock := testDate;
     fs_ensureDir := fun _ => dir;
     fs_writeJson := fun f _ =>
       if f =? failing then Rejected "Disk full" else Resolved tt;
     listCollections := ["patients"; "appointments"] |}.

(** The files of the mocked snapshot directory, and the mocked store
    after a change to one patient and the arrival of another. *)
Definition mockFiles : list Dirent :=
  [ {| name := "patients.json"; isDirectory := false |};
    {| name := "appointments.json"; isDirectory := false |} ].

Definition changedDb : Store :=
  fun c => if c =? "patients" then [johnDoe 26; maryJones]
           else if c =? "appointments" then [appointmentA1]
           else [].

(* ================================================================== *)
(** ** Induction on values *)

(** The induction principle that reaches under arrays and objects. *)
Section ValueInduction.
Variable P : value -> Prop.
Hypothesis Pnull : P JNull.
Hypothesis Pbool : forall b, P (JBool b).
Hypothesis Pnum : forall n, P (JNum n).
Hypothesis Pstr : forall s, P (JStr s).
Hypothesis Parr : forall l, Forall P l -> P (JArr l).
Hypothesis Pobj : forall o, Forall (fun kv => P (snd kv)) o -> P (JObj o).

Fixpoint value_nested_ind (v : value) : P v :=
  match v with
  | JNull => Pnull
  | JBool b => Pbool b
  | JNum n => Pnum n
  | JStr s => Pstr s
  | JArr l =>
      Parr l ((fix all (l : list value) : Forall P l :=
                 match l with
                 | [] => Forall_nil P
                 | x :: l' => Forall_cons x (value_nested_ind x) (all l')
                 end) l)
  | JObj o =>
      Pobj o ((fix all (o : list (string * value))
                : Forall (fun kv => P (snd kv)) o :=
                 match o with
                 | [] => Forall_nil _
                 | kv :: o' =>
                     Forall_cons kv (value_nested_ind (snd kv)) (all o')
                 end) o)
  end.
End ValueInduction.

(* ================================================================== *)
(** ** Lists and identifiers *)

Lemma strictEq_eq (x y : option string) : strictEq x y = true <-> x = y.
Proof.
  destruct x as [a|], y as [b|]; simpl; split; intro H;
    try discriminate; try reflexivity.
  - apply String.eqb_eq in H. now subst.
  - injection H as ->. apply String.eqb_refl.
Qed.

Lemma strictEq_refl (x : option string) : strictEq x x = true.
Proof. now apply strictEq_eq. Qed.

Lemma includes_In (ids : list (option string)) (x : option string) :
  includes ids x = true <-> In x ids.
Proof.
  unfold includes. rewrite existsb_exists. split.
  - intros [y [Hy Heq]]. apply strictEq_eq in Heq. now subst.
  - intro H. exists x. split; [assumption | apply strictEq_refl].
Qed.

Lemma idsOf_In (data : list doc) (x : option string) :
  In x (idsOf data) <->
  Boolean x = true /\ exists d, In d data /\ idString d = x.
Proof.
  unfold idsOf. rewrite filter_In, in_map_iff. split.
  - intros [[d [Hd Hin]] Hb]. split; [assumption|]. now exists d.
  - intros [Hb [d [Hin Hd]]]. split; [|assumption]. now exists d.
Qed.

Lemma hasId_eq (i : string) (d : doc) : hasId i d = true <-> idString d = Some i.
Proof. unfold hasId. apply strictEq_eq. Qed.

Lemma filter_nil_none {A : Type} (p : A -> bool) (l : list A) :
  filter p l = [] -> forall x, In x l -> p x = false.
Proof.
  intros H x Hin. destruct (p x) eqn:E; [|reflexivity].
  assert (In x (filter p l)) as Hf by (apply filter_In; now split).
  rewrite H in Hf. destruct Hf.
Qed.

Lemma filter_single_In {A : Type} (p : A -> bool) (l : list A) (x : A) :
  filter p l = [x] -> In x l /\ p x = true.
Proof.
  intro H. apply filter_In. rewrite H. now left.
Qed.

Lemma filter_swap {A : Type} (p q : A -> bool) (l : list A) :
  filter p (filter q l) = filter q (filter p l).
Proof.
  induction l as [|a l IH]; simpl; [reflexivity|].
  destruct (q a) eqn:Eq, (p a) eqn:Ep; simpl; rewrite ?Eq, ?Ep, IH; reflexivity.
Qed.

Lemma filter_single_find {A : Type} (p : A -> bool) (l : list A) (x : A) :
  filter p l = [x] -> find p l = Some x.
Proof.
  induction l as [|a l IH]; simpl; [discriminate|].
  destruct (p a); [|exact IH].
  intro H. now injection H as -> _.
Qed.

Lemma filter_all_false {A : Type} (p : A -> bool) (l : list A) :
  (forall x, In x l -> p x = false) -> filter p l = [].
Proof.
  induction l as [|a l IH]; simpl; intro H; [reflexivity|].
  rewrite (H a (or_introl eq_refl)). apply IH. intros x Hx. apply H. now right.
Qed.

Lemma length_zero_nil {A : Type} (l : list A) :
  (List.length l =? 0)%nat = true <-> l = [].
Proof. destruct l; simpl; split; intro H; congruence. Qed.

Lemma length_pos_cons {A : Type} (l : list A) :
  (0 <? List.length l)%nat = negb (List.length l =? 0)%nat.
Proof. destruct l; reflexivity. Qed.

(* ================================================================== *)
(** ** What one pass over a collection issues *)

Lemma filter_map_updateOf (p : event -> bool) env coll (l : list doc) :
  (forall d, p (Part000.updateOf env coll d) = false) ->
  filter p (map (Part000.updateOf env coll) l) = [].
Proof.
  intro H. apply filter_all_false. intros x Hx.
  apply in_map_iff in Hx. destruct Hx as [d [<- _]]. apply H.
Qed.

Lemma filter_map_updateOf_all env coll (l : list doc) :
  filter isUpdateOne (map (Part000.updateOf env coll) l)
  = map (Part000.updateOf env coll) l.
Proof. induction l as [|d l IH]; simpl; [reflexivity | now rewrite IH]. Qed.

(** The bulk insert is issued once, with [toInsert] as it is, unless
    [toInsert] is empty. *)
Lemma reconcile_inserts env coll newData existingData :
  filter isInsertMany (Part000.reconcile env coll newData existingData)
  = match Part000.toInsert newData existingData with
    | [] => []
    | _ :: _ => [InsertMany coll (Part000.toInsert newData existingData)]
    end.
Proof.
  unfold Part000.reconcile.
  destruct (Part000.toInsert newData existingData) as [|a ins];
    destruct (Part000.toDelete newData existingData) as [|b del];
    destruct (Part000.toUpdate newData existingData) as [|c upd]; simpl;
    rewrite ?filter_app; simpl;
    rewrite ?filter_map_updateOf by reflexivity; reflexivity.
Qed.

(** The bulk delete is issued once, with the identifiers of [toDelete],
    unless [toDelete] is empty. *)
Lemma reconcile_deletes env coll newData existingData :
  filter isDeleteMany (Part000.reconcile env coll newData existingData)
  = match Part000.toDelete newData existingData with
    | [] => []
    | _ :: _ =>
        [DeleteMany coll (map doc_id (Part000.toDelete newData existingData))]
    end.
Proof.
  unfold Part000.reconcile.
  destruct (Part000.toInsert newData existingData) as [|a ins];
    destruct (Part000.toDelete newData existingData) as [|b del];
    destruct (Part000.toUpdate newData existingData) as [|c upd]; simpl;
    rewrite ?filter_app; simpl;
    rewrite ?filter_map_updateOf by reflexivity; reflexivity.
Qed.

(** One targeted update per document of [toUpdate], in order. *)
Lemma reconcile_updates env coll newData existingData :
  filter isUpdateOne (Part000.reconcile env coll newData existingData)
  = map (Part000.updateOf env coll) (Part000.toUpdate newData existingData).
Proof.
  unfold Part000.reconcile.
  destruct (Part000.toInsert newData existingData) as [|a ins];
    destruct (Part000.toDelete newData existingData) as [|b del];
    destruct (Part000.toUpdate newData existingData) as [|c upd]; simpl;
    rewrite ?filter_app; simpl;
    rewrite ?filter_map_updateOf_all; rewrite ?app_nil_r; reflexivity.
Qed.

Lemma toInsert_In newData existingData d :
  In d (Part000.toInsert newData existingData) <->
  In d newData /\ ~ In (idString d) (idsOf existingData).
Proof.
  unfold Part000.toInsert. rewrite filter_In, negb_true_iff.
  rewrite <- includes_In. now destruct (includes _ _).
Qed.

Lemma toDelete_In newData existingData d :
  In d (Part000.toDelete newData existingData) <->
  In d existingData /\ ~ In (idString d) (idsOf newData).
Proof.
  unfold Part000.toDelete. rewrite filter_In, negb_true_iff.
  rewrite <- includes_In. now destruct (includes _ _).
Qed.

Lemma not_in_idsOf (data : list doc) (i : string) :
  filter (hasId i) data = [] -> ~ In (Some i) (idsOf data).
Proof.
  intros H Hin. apply idsOf_In in Hin. destruct Hin as [_ [d [Hd Hid]]].
  apply hasId_eq in Hid. now rewrite (filter_nil_none _ _ H d Hd) in Hid.
Qed.

(* ================================================================== *)
(** ** Inserts *)

(** C5. An identifier that only the snapshot carries: its imported
    document is the one document of [toInsert] with that identifier,
    and the pass issues one bulk insert, which carries [toInsert]
    unchanged, so that document with its identifier field as
    imported. *)
Theorem C5_snapshot_only_inserted_once env coll newData existingData i d :
  filter (hasId i) newData = [d] ->
  filter (hasId i) existingData = [] ->
  filter (hasId i) (Part000.toInsert newData existingData) = [d] /\
  filter isInsertMany (Part000.reconcile env coll newData existingData)
    = [InsertMany coll (Part000.toInsert newData existingData)].
Proof.
  intros Hnew Hold.
  assert (In d (Part000.toInsert newData existingData)) as Hin.
  { apply toInsert_In. destruct (filter_single_In _ _ _ Hnew) as [Hd Hid].
    split; [assumption|]. apply hasId_eq in Hid. rewrite Hid.
    now apply not_in_idsOf. }
  split.
  - unfold Part000.toInsert at 1. rewrite filter_swap, Hnew. simpl.
    apply toInsert_In in Hin. destruct Hin as [_ Hid].
    rewrite <- includes_In in Hid.
    now destruct (includes (idsOf existingData) (idString d)).
  - rewrite reconcile_inserts.
    destruct (Part000.toInsert newData existingData); [destruct Hin | reflexivity].
Qed.

(** The second test of the suite: Jane is missing from the live
    store. *)
Lemma C5_snapshot_only_inserted_once_witness :
  filter (hasId "2") (Part000.toInsert [johnDoe 25; janeSmith] [johnDoe 25])
    = [janeSmith] /\
  filter isInsertMany
    (Part000.reconcile (mockEnv mockRoot (Resolved [])) "patients"
       [johnDoe 25; janeSmith] [johnDoe 25])
    = [InsertMany "patients"
         (Part000.toInsert [johnDoe 25; janeSmith] [johnDoe 25])].
Proof.
  apply (C5_snapshot_only_inserted_once (mockEnv mockRoot (Resolved []))
           "patients" [johnDoe 25; janeSmith] [johnDoe 25] "2" janeSmith);
    reflexivity.
Defined.

(* ================================================================== *)
(** ** Equality of stored values *)

Lemma value_eqb_true (a : value) : forall b, value_eqb a b = true -> a = b.
Proof.
  induction a as [| x | x | x | l IH | o IH] using value_nested_ind;
    intros [| y | y | y | m | p] H; simpl in H; try discriminate.
  - reflexivity.
  - apply Bool.eqb_prop in H. now subst.
  - apply Z.eqb_eq in H. now subst.
  - apply String.eqb_eq in H. now subst.
  - f_equal. revert m H.
    induction IH as [|x l Hx _ IHl]; intros [|y m] H; try discriminate;
      [reflexivity|].
    apply andb_true_iff in H. destruct H as [H1 H2].
    f_equal; [now apply Hx | now apply IHl].
  - f_equal. revert p H.
    induction IH as [|[k x] o Hx _ IHo]; intros [|[k' y] p] H;
      try discriminate; [reflexivity|].
    apply andb_true_iff in H. destruct H as [H12 H3].
    apply andb_true_iff in H12. destruct H12 as [H1 H2].
    apply String.eqb_eq in H1. subst k'.
    f_equal; [f_equal; now apply Hx | now apply IHo].
Qed.

Lemma value_eqb_refl (a : value) : value_eqb a a = true.
Proof.
  induction a as [| x | x | x | l IH | o IH] using value_nested_ind; simpl.
  - reflexivity.
  - apply Bool.eqb_reflx.
  - apply Z.eqb_refl.
  - apply String.eqb_refl.
  - induction IH as [|x l Hx _ IHl]; [reflexivity|]. now rewrite Hx, IHl.
  - induction IH as [|[k x] o Hx _ IHo]; [reflexivity|].
    simpl in Hx. now rewrite String.eqb_refl, Hx, IHo.
Qed.

Lemma idMatches_refl (x : option value) : idMatches x x = true.
Proof.
  destruct x as [v|]; simpl; [|reflexivity].
  destruct v; apply value_eqb_refl.
Qed.

(** Identifiers that a query takes for equal have one string form. *)
Lemma idMatches_optToString (x y : option value) :
  idMatches x y = true -> optToString x = optToString y.
Proof.
  destruct x as [a|], y as [b|]; simpl; intro H.
  - assert (value_eqb a b = true) as E by (destruct a; assumption).
    apply value_eqb_true in E. now subst.
  - destruct a; try discriminate. reflexivity.
  - destruct b; try discriminate. reflexivity.
  - reflexivity.
Qed.

(* ================================================================== *)
(** ** Deletes *)

(** The bulk delete selects the documents of [toDelete] and no other
    live document. *)
Lemma bulk_delete_selects_toDelete newData existingData :
  filter (matchesIn (map doc_id (Part000.toDelete newData existingData)))
         existingData
  = Part000.toDelete newData existingData.
Proof.
  unfold Part000.toDelete at 2. apply filter_ext_in. intros d Hd.
  destruct (negb (includes (idsOf newData) (idString d))) eqn:E.
  - unfold matchesIn. apply existsb_exists. exists (doc_id d).
    split; [|apply idMatches_refl].
    apply in_map. unfold Part000.toDelete. apply filter_In. now split.
  - destruct (matchesIn _ d) eqn:M; [|reflexivity].
    unfold matchesIn in M. apply existsb_exists in M.
    destruct M as [x [Hx Hm]]. apply in_map_iff in Hx.
    destruct Hx as [d' [<- Hd']]. apply idMatches_optToString in Hm.
    unfold Part000.toDelete in Hd'. apply filter_In in Hd'.
    destruct Hd' as [_ Hd']. unfold idString in *. rewrite Hm in E.
    now rewrite E in Hd'.
Qed.

(** C6. An identifier that only the live set carries: its live
    document is the one document of [toDelete] with that identifier;
    the pass issues one bulk delete, on the identifiers of [toDelete];
    and the live documents that this query selects are those of
    [toDelete], no more and no fewer. *)
Theorem C6_live_only_deleted_once env coll newData existingData i d :
  filter (hasId i) existingData = [d] ->
  filter (hasId i) newData = [] ->
  filter (hasId i) (Part000.toDelete newData existingData) = [d] /\
  filter isDeleteMany (Part000.reconcile env coll newData existingData)
    = [DeleteMany coll (map doc_id (Part000.toDelete newData existingData))] /\
  filter (matchesIn (map doc_id (Part000.toDelete newData existingData)))
         existingData
    = Part000.toDelete newData existingData.
Proof.
  intros Hold Hnew.
  assert (In d (Part000.toDelete newData existingData)) as Hin.
  { apply toDelete_In. destruct (filter_single_In _ _ _ Hold) as [Hd Hid].
    split; [assumption|]. apply hasId_eq in Hid. rewrite Hid.
    now apply not_in_idsOf. }
  split; [|split].
  - unfold Part000.toDelete at 1. rewrite filter_swap, Hold. simpl.
    apply toDelete_In in Hin. destruct Hin as [_ Hid].
    rewrite <- includes_In in Hid.
    now destruct (includes (idsOf newData) (idString d)).
  - rewrite reconcile_deletes.
    destruct (Part000.toDelete newData existingData); [destruct Hin | reflexivity].
  - apply bulk_delete_selects_toDelete.
Qed.

(** The fourth test of the suite: the snapshot of the collection is
    empty. *)
Lemma C6_live_only_deleted_once_witness :
  filter (hasId "1") (Part000.toDelete [] [johnDoe 25]) = [johnDoe 25] /\
  filter isDeleteMany
    (Part000.reconcile (mockEnv mockRoot (Resolved [])) "patients" [] [johnDoe 25])
    = [DeleteMany "patients" (map doc_id (Part000.toDelete [] [johnDoe 25]))] /\
  filter (matchesIn (map doc_id (Part000.toDelete [] [johnDoe 25]))) [johnDoe 25]
    = Part000.toDelete [] [johnDoe 25].
Proof.
  apply (C6_live_only_deleted_once (mockEnv mockRoot (Resolved []))
           "patients" [] [johnDoe 25] "1" (johnDoe 25)); reflexivity.
Defined.

(* ================================================================== *)
(** ** The two revisions *)

(** C10. Both revisions of [loadBackup] compute the same [toInsert]
    and [toDelete] from the same two document sets and issue the same
    bulk insert and bulk delete. *)
Theorem C10_revisions_agree_on_bulk_writes env coll newData existingData :
  ScriptsBackup.toInsert newData existingData
    = Part000.toInsert newData existingData /\
  ScriptsBackup.toDelete newData existingData
    = Part000.toDelete newData existingData /\
  filter isBulkWrite (ScriptsBackup.reconcile coll newData existingData)
    = filter isBulkWrite (Part000.reconcile env coll newData existingData).
Proof.
  split; [reflexivity | split; [reflexivity|]].
  unfold ScriptsBackup.reconcile, Part000.reconcile.
  change (ScriptsBackup.toInsert newData existingData)
    with (Part000.toInsert newData existingData).
  change (ScriptsBackup.toDelete newData existingData)
    with (Part000.toDelete newData existingData).
  destruct (Part000.toInsert newData existingData) as [|a ins];
    destruct (Part000.toDelete newData existingData) as [|b del];
    destruct (Part000.toUpdate newData existingData) as [|c upd]; simpl;
    rewrite ?filter_app; simpl;
    rewrite ?filter_map_updateOf by reflexivity; reflexivity.
Qed.

(* ================================================================== *)
(** ** No snapshot, and a snapshot that cannot be read *)

(** C8. When the root holds no directory whose name starts with the
    snapshot prefix, the restore says so on the console, resolves, and
    leaves the store as it was without a single call on it. *)
Theorem C8_no_snapshot_is_not_an_error env baseDir db entries :
  fs_readdir env (orDefault env baseDir) = Resolved entries ->
  (forall e, In e entries -> isDirectory e = true ->
             startsWith "backup_" (name e) = false) ->
  result (Part000.loadBackup env baseDir db) = Resolved tt /\
  trace (Part000.loadBackup env baseDir db) = [ConsoleLog "No backups found."] /\
  finalDb (Part000.loadBackup env baseDir db) = db.
Proof.
  intros Hdir Hnone. unfold Part000.loadBackup. rewrite Hdir.
  assert (backupDirsOf entries = []) as ->.
  { unfold backupDirsOf. rewrite filter_all_false; [reflexivity|].
    intros e He. destruct (isDirectory e) eqn:D; [|reflexivity].
    simpl. now apply Hnone. }
  simpl. repeat split.
Qed.

(** The third error-handling test of the suite: the root is empty. *)
Lemma C8_no_snapshot_is_not_an_error_witness :
  result (Part000.loadBackup (mockEnv [] (Resolved [])) (Some mockBaseDir) mockDb)
    = Resolved tt /\
  trace (Part000.loadBackup (mockEnv [] (Resolved [])) (Some mockBaseDir) mockDb)
    = [ConsoleLog "No backups found."] /\
  finalDb (Part000.loadBackup (mockEnv [] (Resolved [])) (Some mockBaseDir) mockDb)
    = mockDb.
Proof.
  apply (C8_no_snapshot_is_not_an_error (mockEnv [] (Resolved []))
           (Some mockBaseDir) mockDb []).
  - reflexivity.
  - intros e He. destruct He.
Defined.

(** The loop over the files of a snapshot, cut in two. *)
Lemma forFiles_app env backupDir pre rest db :
  result (Part000.forFiles env backupDir pre db) = Resolved tt ->
  let r1 := Part000.forFiles env backupDir pre db in
  let r2 := Part000.forFiles env backupDir rest (finalDb r1) in
  Part000.forFiles env backupDir (pre ++ rest)%list db
  = {| result := result r2; finalDb := finalDb r2;
       trace := (trace r1 ++ trace r2)%list |}.
Proof.
  revert db. induction pre as [|file pre IH]; intros db H; simpl.
  - now destruct (Part000.forFiles env backupDir rest db).
  - simpl in H.
    destruct (negb (path_extname file =? ".json")); [now apply IH|].
    destruct (fs_readJson env (path_join backupDir file)) as [newData|e];
      [|discriminate].
    simpl in *. rewrite IH by assumption. simpl.
    now rewrite <- app_assoc.
Qed.

(** The characters that [extRev] returns open the reversed name, and
    something is left before the dot. *)
Lemma extRev_some (r e : list ascii) :
  extRev r = Some e -> exists r', r = (e ++ r')%list /\ r' <> [].
Proof.
  revert e. induction r as [|c r IH]; intros e H; simpl in H; [discriminate|].
  destruct (Ascii.eqb c ".").
  - destruct r as [|c' r]; [discriminate|]. injection H as <-.
    now exists (c' :: r).
  - destruct (extRev r) as [e'|]; [|discriminate]. injection H as <-.
    destruct (IH e' eq_refl) as [r' [-> Hr']]. now exists r'.
Qed.

Lemma endsWithRev_app (e r : list ascii) : endsWithRev e (e ++ r)%list = true.
Proof.
  induction e as [|c e IH]; simpl; [reflexivity|].
  now rewrite Ascii.eqb_refl, IH.
Qed.

Lemma string_of_list_ascii_app (a b : list ascii) :
  string_of_list_ascii (a ++ b)%list
  = string_of_list_ascii a ++ string_of_list_ascii b.
Proof. induction a as [|c a IH]; simpl; [reflexivity | now rewrite IH]. Qed.

(** A name with the extension [.json] is its base name followed by
    the extension. *)
Lemma path_basename_json (file : string) :
  path_extname file = ".json" ->
  file = path_basename file ".json" ++ ".json".
Proof.
  unfold path_extname, path_basename. intro H.
  destruct (extRev (List.rev (list_ascii_of_string file))) as [e|] eqn:E;
    [|discriminate].
  apply (f_equal list_ascii_of_string) in H.
  rewrite list_ascii_of_string_of_list_ascii in H.
  apply (f_equal (@List.rev ascii)) in H. rewrite rev_involutive in H.
  subst e. apply extRev_some in E. destruct E as [r' [E Hr']].
  apply (f_equal (@List.rev ascii)) in E.
  rewrite rev_involutive, rev_app_distr, rev_involutive in E.
  assert (file = string_of_list_ascii (List.rev r') ++ ".json") as Hfile.
  { rewrite <- (string_of_list_ascii_of_string file), E.
    now rewrite string_of_list_ascii_app. }
  rewrite E, rev_app_distr, rev_involutive, endsWithRev_app.
  destruct (String.eqb_spec file ".json") as [Heq|_].
  - exfalso. rewrite Heq in E. apply (f_equal (@List.length ascii)) in E.
    rewrite length_app, length_rev in E. simpl in E.
    destruct r'; [now destruct Hr' | simpl in E; lia].
  - cbn [andb negb]. rewrite length_app, Nat.add_sub.
    rewrite <- (Nat.add_0_r (List.length (List.rev r'))).
    rewrite firstn_app_2, firstn_O, app_nil_r. exact Hfile.
Qed.

Lemma path_basename_json_inj (f g : string) :
  path_extname f = ".json" -> path_extname g = ".json" ->
  path_basename f ".json" = path_basename g ".json" -> f = g.
Proof.
  intros Hf Hg H.
  rewrite (path_basename_json f Hf), (path_basename_json g Hg). now rewrite H.
Qed.

(** A pass calls the store on its own collection only. *)
Lemma reconcile_collection env coll newData existingData ev c :
  In ev (Part000.reconcile env coll newData existingData) ->
  collectionOf ev = Some c -> c = coll.
Proof.
  unfold Part000.reconcile. intros Hin Hc.
  assert (forall l : list doc,
            In ev (if (0 <? List.length l)%nat then [InsertMany coll l] else [])
            -> c = coll) as Hi.
  { intros l H. destruct (0 <? List.length l)%nat; [|destruct H].
    destruct H as [<-|[]]. simpl in Hc. congruence. }
  assert (forall l : list doc,
            In ev (if (0 <? List.length l)%nat
                   then [DeleteMany coll (map doc_id l)] else [])
            -> c = coll) as Hd.
  { intros l H. destruct (0 <? List.length l)%nat; [|destruct H].
    destruct H as [<-|[]]. simpl in Hc. congruence. }
  destruct (_ && _ && _).
  - destruct Hin as [<-|[]]. discriminate.
  - repeat (apply in_app_or in Hin; destruct Hin as [Hin|Hin]).
    + now apply Hi in Hin.
    + now apply Hd in Hin.
    + apply in_map_iff in Hin. destruct Hin as [d [<- _]].
      simpl in Hc. congruence.
    + destruct Hin as [<-|[]]. discriminate.
Qed.

(** The loop calls the store on the collections of its [.json] files
    only. *)
Lemma forFiles_collections env backupDir files : forall db ev c,
  In ev (trace (Part000.forFiles env backupDir files db)) ->
  collectionOf ev = Some c ->
  exists file, In file files /\ path_extname file = ".json" /\
               c = path_basename file ".json".
Proof.
  induction files as [|file files IH]; intros db ev c Hin Hc; simpl in Hin;
    [destruct Hin|].
  destruct (String.eqb_spec (path_extname file) ".json") as [Hext|Hext];
    cbn [negb] in Hin.
  - destruct (fs_readJson env (path_join backupDir file)) as [newData|e];
      [|destruct Hin].
    cbn [trace] in Hin. destruct Hin as [<-|Hin].
    + simpl in Hc. injection Hc as <-. exists file. repeat split; tauto || now left.
    + apply in_app_or in Hin. destruct Hin as [Hin|Hin].
      * apply (reconcile_collection _ _ _ _ _ c) in Hin; [|assumption].
        exists file. repeat split; tauto || now left.
      * destruct (IH _ ev c Hin Hc) as [g [Hg [He Hb]]].
        exists g. repeat split; tauto || now right.
  - destruct (IH _ ev c Hin Hc) as [g [Hg [He Hb]]].
    exists g. repeat split; tauto || now right.
Qed.

(** C9. When reading a collection file fails, the restore rejects with
    that very error, and it has done what it did for the files before
    and nothing else: no call for the collection of the failing file,
    and the files after it are not looked at. *)
Theorem C9_unreadable_file_aborts_the_run
    env baseDir db entries backupDir files pre file post e :
  fs_readdir env (orDefault env baseDir) = Resolved entries ->
  backupDir = path_join (orDefault env baseDir)
                (last (sort (backupDirsOf entries)) EmptyString) ->
  backupDirsOf entries <> [] ->
  fs_readdir env backupDir = Resolved files ->
  map name files = (pre ++ file :: post)%list ->
  ~ In file pre ->
  path_extname file = ".json" ->
  fs_readJson env (path_join backupDir file) = Rejected e ->
  result (Part000.forFiles env backupDir pre db) = Resolved tt ->
  result (Part000.loadBackup env baseDir db) = Rejected e /\
  trace (Part000.loadBackup env baseDir db)
    = ConsoleLog ("Loading latest backup: " ++ backupDir)
        :: trace (Part000.forFiles env backupDir pre db) /\
  finalDb (Part000.loadBackup env baseDir db)
    = finalDb (Part000.forFiles env backupDir pre db) /\
  forall ev, In ev (trace (Part000.loadBackup env baseDir db)) ->
             collectionOf ev <> Some (path_basename file ".json").
Proof.
  intros Hroot HbackupDir Hsome Hdir Hfiles Hfresh Hext Hread Hpre.
  assert (result (Part000.loadBackup env baseDir db) = Rejected e /\
          trace (Part000.loadBackup env baseDir db)
            = ConsoleLog ("Loading latest backup: " ++ backupDir)
                :: trace (Part000.forFiles env backupDir pre db) /\
          finalDb (Part000.loadBackup env baseDir db)
            = finalDb (Part000.forFiles env backupDir pre db)) as [R [T F]].
  { unfold Part000.loadBackup. rewrite Hroot.
    destruct (backupDirsOf entries) as [|b bs] eqn:B; [now destruct Hsome|].
    cbn [List.length Nat.eqb]. rewrite <- HbackupDir, Hdir, Hfiles.
    rewrite forFiles_app by assumption.
    cbn [result trace finalDb Part000.forFiles].
    rewrite Hext, Hread. cbn. rewrite app_nil_r. repeat split. }
  repeat split; try assumption.
  intros ev Hin Hc. rewrite T in Hin. destruct Hin as [<-|Hin]; [discriminate|].
  destruct (forFiles_collections _ _ _ _ _ _ Hin Hc) as [g [Hg [He Hb]]].
  apply Hfresh. now rewrite (path_basename_json_inj file g Hext He Hb).
Qed.

(** The second error-handling test of the suite: [patients.json] is
    corrupted. *)
Lemma C9_unreadable_file_aborts_the_run_witness :
  result (Part000.loadBackup (mockEnv mockRoot (Rejected "Invalid JSON"))
            (Some mockBaseDir) mockDb)
    = Rejected "Invalid JSON" /\
  trace (Part000.loadBackup (mockEnv mockRoot (Rejected "Invalid JSON"))
           (Some mockBaseDir) mockDb)
    = [ConsoleLog "Loading latest backup: C:/temp/backups/backup_10282025_023811"] /\
  finalDb (Part000.loadBackup (mockEnv mockRoot (Rejected "Invalid JSON"))
             (Some mockBaseDir) mockDb)
    = mockDb.
Proof.
  destruct (C9_unreadable_file_aborts_the_run
              (mockEnv mockRoot (Rejected "Invalid JSON")) (Some mockBaseDir) mockDb
              mockRoot "C:/temp/backups/backup_10282025_023811"
              [ {| name := "patients.json"; isDirectory := false |};
                {| name := "appointments.json"; isDirectory := false |} ]
              [] "patients.json" ["appointments.json"] "Invalid JSON")
    as [R [T [F _]]]; try reflexivity.
  - discriminate.
  - intros [].
  - repeat split; assumption.
Defined.

(* ================================================================== *)
(** ** The latest snapshot *)

(** C2. The name written in the first second of 2025 sorts before the
    name written in the last second of 2024, and with both snapshots in
    the root the restore loads the one of 2024 as the latest. *)
Theorem C2_later_snapshot_sorts_first :
  validTime newYearsEve = true /\
  validTime newYearsDay = true /\
  earlier newYearsEve newYearsDay = true /\
  String.ltb (getTimestamp newYearsDay) (getTimestamp newYearsEve) = true /\
  hd (ConsoleLog EmptyString)
     (trace (Part000.loadBackup (mockEnv twoYears (Resolved [johnDoe 25]))
               (Some mockBaseDir) mockDb))
  = ConsoleLog "Loading latest backup: C:/temp/backups/backup_12312024_235959".
Proof. repeat split; vm_compute; reflexivity. Qed.

Lemma ascii_compare_refl (c : ascii) : Ascii.compare c c = Eq.
Proof. unfold Ascii.compare. apply N.compare_refl. Qed.

Lemma compare_common_prefix (p s t : string) :
  String.compare (p ++ s) (p ++ t) = String.compare s t.
Proof.
  induction p as [|c p IH]; simpl; [reflexivity|].
  now rewrite ascii_compare_refl.
Qed.

Lemma compare_lt_append (x : string) : forall y s t,
  String.length x = String.length y ->
  String.compare x y = Lt ->
  String.compare (x ++ s) (y ++ t) = Lt.
Proof.
  induction x as [|c x IH]; intros [|c' y] s t Hlen H; simpl in *;
    try discriminate.
  destruct (Ascii.compare c c'); try discriminate; [|reflexivity].
  apply IH; [now injection Hlen | assumption].
Qed.

Lemma twoDigits_In (n : Z) : (0 <= n <= 99)%Z -> In n twoDigits.
Proof.
  intro H. unfold twoDigits. rewrite <- (Z2Nat.id n) by lia.
  apply in_map, in_seq. lia.
Qed.

Lemma twoDigitsOrdered_holds : twoDigitsOrdered = true.
Proof. vm_compute. reflexivity. Qed.

Lemma pad2_length (n : Z) : (0 <= n <= 99)%Z -> String.length (pad2 n) = 2%nat.
Proof.
  intro H. pose proof twoDigitsOrdered_holds as A. unfold twoDigitsOrdered in A.
  rewrite forallb_forall in A. specialize (A n (twoDigits_In n H)).
  apply andb_true_iff in A. destruct A as [A _]. now apply Nat.eqb_eq.
Qed.

Lemma pad2_lt (n m : Z) :
  (0 <= n <= 99)%Z -> (0 <= m <= 99)%Z -> (n < m)%Z ->
  String.compare (pad2 n) (pad2 m) = Lt.
Proof.
  intros Hn Hm Hlt. pose proof twoDigitsOrdered_holds as A.
  unfold twoDigitsOrdered in A. rewrite forallb_forall in A.
  specialize (A n (twoDigits_In n Hn)).
  apply andb_true_iff in A. destruct A as [_ A].
  rewrite forallb_forall in A. specialize (A m (twoDigits_In m Hm)).
  apply Z.ltb_lt in Hlt. rewrite Hlt in A. simpl in A.
  unfold String.ltb in A. now destruct (String.compare (pad2 n) (pad2 m)).
Qed.

Lemma pad2_lt_append (n m : Z) (s t : string) :
  (0 <= n <= 99)%Z -> (0 <= m <= 99)%Z -> (n < m)%Z ->
  String.compare (pad2 n ++ s) (pad2 m ++ t) = Lt.
Proof.
  intros Hn Hm Hlt. apply compare_lt_append.
  - now rewrite !pad2_length.
  - now apply pad2_lt.
Qed.

(** Within one year the names do sort as the instants follow each
    other: month, day, hour, minute and second are compared in that
    order, each on two characters. *)
Lemma same_year_names_in_order (a b : LocalTime) :
  validTime a = true -> validTime b = true ->
  getFullYear a = getFullYear b ->
  earlier a b = true ->
  String.ltb (getTimestamp a) (getTimestamp b) = true.
Proof.
  destruct a as [Y Mo D H Mi S], b as [Y' Mo' D' H' Mi' S'].
  unfold validTime, earlier, getTimestamp, String.ltb. cbn [getFullYear getMonth
    getDate getHours getMinutes getSeconds].
  intros Va Vb <- E.
  repeat (apply andb_true_iff in Va; destruct Va as [Va ?]).
  repeat (apply andb_true_iff in Vb; destruct Vb as [Vb ?]).
  repeat match goal with
         | H : (_ <=? _)%Z = true |- _ => apply Z.leb_le in H
         end.
  fold (pad2 (Mo + 1)) (pad2 D) (pad2 H) (pad2 Mi) (pad2 S)
       (pad2 (Mo' + 1)) (pad2 D') (pad2 H') (pad2 Mi') (pad2 S').
  rewrite Z.ltb_irrefl, Z.eqb_refl in E. cbn [orb andb] in E.
  rewrite compare_common_prefix.
  destruct (Z.ltb_spec Mo Mo') as [L|_].
  { rewrite pad2_lt_append; [reflexivity | lia | lia | lia]. }
  cbn [orb] in E. apply andb_true_iff in E. destruct E as [Eq E].
  apply Z.eqb_eq in Eq. subst Mo'. rewrite compare_common_prefix.
  destruct (Z.ltb_spec D D') as [L|_].
  { rewrite pad2_lt_append; [reflexivity | lia | lia | lia]. }
  cbn [orb] in E. apply andb_true_iff in E. destruct E as [Eq E].
  apply Z.eqb_eq in Eq. subst D'.
  rewrite !compare_common_prefix.
  destruct (Z.ltb_spec H H') as [L|_].
  { rewrite pad2_lt_append; [reflexivity | lia | lia | lia]. }
  cbn [orb] in E. apply andb_true_iff in E. destruct E as [Eq E].
  apply Z.eqb_eq in Eq. subst H'. rewrite compare_common_prefix.
  destruct (Z.ltb_spec Mi Mi') as [L|_].
  { rewrite pad2_lt_append; [reflexivity | lia | lia | lia]. }
  cbn [orb] in E. apply andb_true_iff in E. destruct E as [Eq E].
  apply Z.eqb_eq in Eq. subst Mi'. rewrite compare_common_prefix.
  destruct (Z.ltb_spec S S') as [L|_].
  { rewrite pad2_lt; [reflexivity | lia | lia | lia]. }
  cbn [orb] in E. now rewrite andb_false_r in E.
Qed.

(* ================================================================== *)
(** ** Targeted updates, by identifier *)

Lemma updatesId_updateOf env coll i d :
  updatesId i (Part000.updateOf env coll d) = hasId i d.
Proof.
  unfold Part000.updateOf, updatesId, hasId, idString, Part000.queryIdOf.
  destruct (doc_id d) as [v|]; [|reflexivity].
  now destruct (ObjectId_isValid env v).
Qed.

Lemma filter_refine {A : Type} (p q : A -> bool) (l : list A) :
  (forall x, p x = true -> q x = true) ->
  filter p l = filter p (filter q l).
Proof.
  intro H. induction l as [|a l IH]; simpl; [reflexivity|].
  destruct (q a) eqn:Eq; simpl.
  - destruct (p a); now rewrite IH.
  - destruct (p a) eqn:Ep; [|exact IH]. apply H in Ep. congruence.
Qed.

Lemma filter_map_comm {A B : Type} (f : A -> B) (p : B -> bool) (q : A -> bool)
    (l : list A) :
  (forall x, p (f x) = q x) -> filter p (map f l) = map f (filter q l).
Proof.
  intro H. induction l as [|a l IH]; simpl; [reflexivity|].
  rewrite H. destruct (q a); simpl; now rewrite IH.
Qed.

(** The targeted updates of a pass for identifier [i] come from the
    documents of [toUpdate] that carry [i], one each. *)
Lemma reconcile_updates_for env coll newData existingData i :
  filter (updatesId i) (Part000.reconcile env coll newData existingData)
  = map (Part000.updateOf env coll)
        (filter (hasId i) (Part000.toUpdate newData existingData)).
Proof.
  rewrite (filter_refine (updatesId i) isUpdateOne).
  - rewrite reconcile_updates. apply filter_map_comm.
    intro x. apply updatesId_updateOf.
  - intros [] H; simpl in *; congruence.
Qed.

Lemma In_insertMany env coll newData existingData docs :
  In (InsertMany coll docs) (Part000.reconcile env coll newData existingData) ->
  docs = Part000.toInsert newData existingData.
Proof.
  intro H.
  assert (In (InsertMany coll docs)
            (filter isInsertMany
               (Part000.reconcile env coll newData existingData))) as Hf
    by (apply filter_In; now split).
  rewrite reconcile_inserts in Hf.
  destruct (Part000.toInsert newData existingData); [destruct Hf|].
  destruct Hf as [Hf|[]]. now injection Hf.
Qed.

Lemma In_deleteMany env coll newData existingData ids :
  In (DeleteMany coll ids) (Part000.reconcile env coll newData existingData) ->
  ids = map doc_id (Part000.toDelete newData existingData).
Proof.
  intro H.
  assert (In (DeleteMany coll ids)
            (filter isDeleteMany
               (Part000.reconcile env coll newData existingData))) as Hf
    by (apply filter_In; now split).
  rewrite reconcile_deletes in Hf.
  destruct (Part000.toDelete newData existingData); [destruct Hf|].
  destruct Hf as [Hf|[]]. now injection Hf.
Qed.

Lemma in_idsOf (data : list doc) (d : doc) (i : string) :
  In d data -> idString d = Some i -> i <> EmptyString ->
  In (Some i) (idsOf data).
Proof.
  intros Hd Hid Hi. apply idsOf_In. split.
  - destruct i; [now destruct Hi | reflexivity].
  - now exists d.
Qed.

(* ================================================================== *)
(** ** Documents without an identifier *)

(** C7, as the specification has it, fails: an imported document
    without an identifier field is classified for insertion. *)
Lemma C7_counterexample : ~ excludesDocumentsWithoutIdentifier.
Proof.
  intro H.
  destruct (H [anonymous] [johnDoe 25] anonymous eq_refl
              (or_introl (or_introl eq_refl))) as [Hins _].
  apply Hins. vm_compute. now left.
Qed.

Lemma no_identifier_not_listed (data : list doc) (d : doc) :
  doc_id d = None -> ~ In (idString d) (idsOf data).
Proof.
  intros Hd Hin. apply idsOf_In in Hin. destruct Hin as [Hb _].
  unfold idString in Hb. now rewrite Hd in Hb.
Qed.

(** C7, amended. A document without an identifier field matches
    nothing on the other side.  Imported, it is in [toInsert] and the
    pass issues the bulk insert that carries it; live, it is in
    [toDelete] and the bulk delete of the pass selects it; and an
    imported one is in [toUpdate] only if some live document has no
    identifier either. *)
Theorem C7_documents_without_identifier env coll newData existingData d :
  doc_id d = None ->
  (In d newData ->
     In d (Part000.toInsert newData existingData) /\
     filter isInsertMany (Part000.reconcile env coll newData existingData)
       = [InsertMany coll (Part000.toInsert newData existingData)]) /\
  (In d existingData ->
     In d (Part000.toDelete newData existingData) /\
     filter isDeleteMany (Part000.reconcile env coll newData existingData)
       = [DeleteMany coll (map doc_id (Part000.toDelete newData existingData))] /\
     matchesIn (map doc_id (Part000.toDelete newData existingData)) d = true) /\
  ((forall e, In e existingData -> idString e <> None) ->
     ~ In d (Part000.toUpdate newData existingData)).
Proof.
  intro Hd. split; [|split].
  - intro Hin.
    assert (In d (Part000.toInsert newData existingData)) as Hins
      by (apply toInsert_In; split;
          [assumption | now apply no_identifier_not_listed]).
    split; [assumption|]. rewrite reconcile_inserts.
    destruct (Part000.toInsert newData existingData); [destruct Hins | reflexivity].
  - intro Hin.
    assert (In d (Part000.toDelete newData existingData)) as Hdel
      by (apply toDelete_In; split;
          [assumption | now apply no_identifier_not_listed]).
    split; [assumption | split].
    + rewrite reconcile_deletes.
      destruct (Part000.toDelete newData existingData); [destruct Hdel | reflexivity].
    + assert (In d (filter (matchesIn
                 (map doc_id (Part000.toDelete newData existingData)))
                 existingData)) as Hsel
        by (now rewrite bulk_delete_selects_toDelete).
      now apply filter_In in Hsel.
  - intros Hlive Hupd. unfold Part000.toUpdate in Hupd.
    apply filter_In in Hupd. destruct Hupd as [_ Hupd].
    destruct (Part000.findMatch existingData d) as [m|] eqn:M; [|discriminate].
    unfold Part000.findMatch in M. apply find_some in M. destruct M as [Hm Heq].
    apply strictEq_eq in Heq. apply (Hlive m Hm).
    rewrite Heq. unfold idString. now rewrite Hd.
Qed.

Lemma C7_documents_without_identifier_witness :
  In anonymous (Part000.toInsert [anonymous] [johnDoe 25]) /\
  ~ In anonymous (Part000.toUpdate [anonymous] [johnDoe 25]).
Proof.
  destruct (C7_documents_without_identifier (mockEnv mockRoot (Resolved []))
              "patients" [anonymous] [johnDoe 25] anonymous eq_refl)
    as [Hins [_ Hupd]].
  split.
  - apply Hins. now left.
  - apply Hupd. intros e [<-|[]]. discriminate.
Defined.

(* ================================================================== *)
(** ** Documents that need no change *)

(** C4, as the specification has it, fails: with the identifier
    written last in the imported document and first in the live one,
    the other fields are the same and the document is classified for
    update. *)
Lemma C4_counterexample : ~ skipsEqualContent.
Proof.
  intro H.
  destruct (H [johnIdLast] [johnDoe 25] johnIdLast (johnDoe 25) "1"
              eq_refl eq_refl eq_refl) as [_ [Hupd _]].
  apply Hupd. vm_compute. now left.
Qed.

(** C4, amended. A document that both sides hold with the same
    serialization, under a non-empty identifier that no other document
    of either side carries, is in none of [toInsert], [toUpdate] and
    [toDelete]; the bulk insert of the pass does not carry it, the bulk
    delete does not select it, and no targeted update is issued for its
    identifier. *)
Theorem C4_identical_document_untouched env coll newData existingData i d :
  filter (hasId i) newData = [d] ->
  filter (hasId i) existingData = [d] ->
  i <> EmptyString ->
  ~ In d (Part000.toInsert newData existingData) /\
  ~ In d (Part000.toUpdate newData existingData) /\
  ~ In d (Part000.toDelete newData existingData) /\
  (forall docs,
     In (InsertMany coll docs) (Part000.reconcile env coll newData existingData) ->
     ~ In d docs) /\
  (forall ids,
     In (DeleteMany coll ids) (Part000.reconcile env coll newData existingData) ->
     matchesIn ids d = false) /\
  filter (updatesId i) (Part000.reconcile env coll newData existingData) = [].
Proof.
  intros Hnew Hold Hi.
  destruct (filter_single_In _ _ _ Hnew) as [HdN Hid].
  destruct (filter_single_In _ _ _ Hold) as [HdE _].
  apply hasId_eq in Hid.
  assert (~ In d (Part000.toInsert newData existingData)) as Hins.
  { intro Hin. apply toInsert_In in Hin. destruct Hin as [_ Hin].
    apply Hin. rewrite Hid. now apply (in_idsOf existingData d). }
  assert (~ In d (Part000.toDelete newData existingData)) as Hdel.
  { intro Hin. apply toDelete_In in Hin. destruct Hin as [_ Hin].
    apply Hin. rewrite Hid. now apply (in_idsOf newData d). }
  assert (~ In d (Part000.toUpdate newData existingData)) as Hupd.
  { intro Hin. unfold Part000.toUpdate in Hin. apply filter_In in Hin.
    destruct Hin as [_ Hin]. unfold Part000.findMatch in Hin.
    rewrite Hid in Hin. change (fun e : doc => strictEq (idString e) (Some i))
      with (hasId i) in Hin.
    rewrite (filter_single_find _ _ _ Hold) in Hin.
    now rewrite String.eqb_refl in Hin. }
  repeat split; try assumption.
  - intros docs Hdocs. apply In_insertMany in Hdocs. now subst.
  - intros ids Hids. apply In_deleteMany in Hids. subst ids.
    destruct (matchesIn _ d) eqn:M; [|reflexivity].
    exfalso. apply Hdel. rewrite <- bulk_delete_selects_toDelete.
    apply filter_In. now split.
  - rewrite reconcile_updates_for.
    unfold Part000.toUpdate. rewrite filter_swap, Hnew. cbn [filter].
    destruct (match Part000.findMatch existingData d with
              | Some m => negb (stringifyDoc m =? stringifyDoc d)
              | None => false end) eqn:E; [|reflexivity].
    exfalso. apply Hupd. unfold Part000.toUpdate. apply filter_In. now split.
Qed.

(** The third restoration test of the suite: the snapshot and the live
    store hold the same patient. *)
Lemma C4_identical_document_untouched_witness :
  ~ In (johnDoe 25) (Part000.toInsert [johnDoe 25] [johnDoe 25]) /\
  ~ In (johnDoe 25) (Part000.toUpdate [johnDoe 25] [johnDoe 25]) /\
  ~ In (johnDoe 25) (Part000.toDelete [johnDoe 25] [johnDoe 25]) /\
  filter (updatesId "1")
    (Part000.reconcile (mockEnv mockRoot (Resolved [])) "patients"
       [johnDoe 25] [johnDoe 25]) = [].
Proof.
  destruct (C4_identical_document_untouched (mockEnv mockRoot (Resolved []))
              "patients" [johnDoe 25] [johnDoe 25] "1" (johnDoe 25)
              eq_refl eq_refl) as [H1 [H2 [H3 [_ [_ H4]]]]].
  - discriminate.
  - repeat split; assumption.
Defined.

(* ================================================================== *)
(** ** Strings *)

Lemma append_nil_r (s : string) : s ++ EmptyString = s.
Proof. induction s as [|c s IH]; simpl; [reflexivity | now rewrite IH]. Qed.

Lemma append_assoc (a b c : string) : (a ++ b) ++ c = a ++ (b ++ c).
Proof. induction a as [|x a IH]; simpl; [reflexivity | now rewrite IH]. Qed.

Lemma append_cancel_l (a b c : string) : a ++ b = a ++ c -> b = c.
Proof.
  induction a as [|x a IH]; simpl; intro H; [assumption|].
  injection H as H. now apply IH.
Qed.

Lemma startsWith_append (p r : string) : startsWith p (p ++ r) = true.
Proof.
  induction p as [|c p IH]; simpl; [reflexivity|].
  now rewrite Ascii.eqb_refl, IH.
Qed.

Lemma startsWith_split (p s : string) :
  startsWith p s = true -> exists r, s = p ++ r.
Proof.
  revert s. induction p as [|c p IH]; intros s H; simpl in *.
  - now exists s.
  - destruct s as [|c' s]; [discriminate|].
    apply andb_true_iff in H. destruct H as [Hc Hp].
    apply Ascii.eqb_eq in Hc. subst c'.
    destruct (IH s Hp) as [r ->]. now exists r.
Qed.

(** Of two strings that open the same text, one opens the other. *)
Lemma append_eq_prefix (a b r r' : string) :
  a ++ r = b ++ r' -> startsWith a b = true \/ startsWith b a = true.
Proof.
  revert b. induction a as [|x a IH]; intros b H; simpl.
  - now left.
  - destruct b as [|y b]; [now right|].
    simpl in H. injection H as -> H. simpl. rewrite Ascii.eqb_refl. simpl.
    now apply IH.
Qed.

(* ================================================================== *)
(** ** Quoted strings are read back *)

Lemma allAscii_complete (c : ascii) : In c allAscii.
Proof.
  unfold allAscii. rewrite <- (ascii_nat_embedding c).
  apply in_map, in_seq. pose proof (nat_ascii_bounded c). lia.
Qed.

Lemma quoteCharPrefixFree_holds : quoteCharPrefixFree = true.
Proof. vm_compute. reflexivity. Qed.

Lemma quoteCharNotQuote_holds : quoteCharNotQuote = true.
Proof. vm_compute. reflexivity. Qed.

Lemma quoteChar_prefix (c c' : ascii) :
  startsWith (quoteChar c) (quoteChar c') = true -> c = c'.
Proof.
  intro H. pose proof quoteCharPrefixFree_holds as A.
  unfold quoteCharPrefixFree in A. rewrite forallb_forall in A.
  specialize (A c (allAscii_complete c)). rewrite forallb_forall in A.
  specialize (A c' (allAscii_complete c')). rewrite H in A. simpl in A.
  now apply Ascii.eqb_eq.
Qed.

Lemma quoteChar_start (c : ascii) :
  exists a w, quoteChar c = String a w /\ a <> dquote.
Proof.
  pose proof quoteCharNotQuote_holds as A.
  unfold quoteCharNotQuote in A. rewrite forallb_forall in A.
  specialize (A c (allAscii_complete c)).
  destruct (quoteChar c) as [|a w]; [discriminate|].
  exists a, w. split; [reflexivity|].
  intros ->. now rewrite Ascii.eqb_refl in A.
Qed.

Lemma quoteChar_inj (c c' : ascii) (r r' : string) :
  quoteChar c ++ r = quoteChar c' ++ r' -> c = c' /\ r = r'.
Proof.
  intro H.
  assert (c = c') as ->.
  { destruct (append_eq_prefix _ _ _ _ H) as [P|P];
      apply quoteChar_prefix in P; congruence. }
  split; [reflexivity | now apply append_cancel_l in H].
Qed.

(** The body of a quoted string ends at the first bare quote. *)
Lemma quoteBody_inj (s : string) : forall s' r r',
  quoteBody s ++ String dquote r = quoteBody s' ++ String dquote r' ->
  s = s' /\ r = r'.
Proof.
  induction s as [|c s IH]; intros [|c' s'] r r' H; simpl in H.
  - injection H as ->. now split.
  - destruct (quoteChar_start c') as [a [w [E Ha]]].
    rewrite E in H. simpl in H. injection H as H _. congruence.
  - destruct (quoteChar_start c) as [a [w [E Ha]]].
    rewrite E in H. simpl in H. injection H as H _. congruence.
  - rewrite !append_assoc in H. apply quoteChar_inj in H.
    destruct H as [-> H]. apply IH in H. destruct H as [-> ->]. now split.
Qed.

Lemma quote_inj (s s' r r' : string) :
  quote s ++ r = quote s' ++ r' -> s = s' /\ r = r'.
Proof.
  unfold quote, str1. simpl. intro H. injection H as H.
  rewrite !append_assoc in H. simpl in H. now apply quoteBody_inj in H.
Qed.

(* ================================================================== *)
(** ** Rendered integers are read back *)

Lemma allNum_uint (d : uint) : allNum (NilEmpty.string_of_uint d) = true.
Proof. induction d; simpl; auto. Qed.

Lemma allNum_int (d : int) : allNum (NilZero.string_of_int d) = true.
Proof.
  destruct d as [d|d]; simpl; destruct d; simpl;
    try reflexivity; apply allNum_uint.
Qed.

Lemma Number_toString_allNum (n : Z) : allNum (Number_toString n) = true.
Proof. apply allNum_int. Qed.

Lemma Number_toString_start (n : Z) :
  exists c s, Number_toString n = String c s /\ isNumChar c = true.
Proof.
  pose proof (Number_toString_allNum n) as H. unfold Number_toString in *.
  destruct (NilZero.string_of_int (Z.to_int n)) as [|c s] eqn:E.
  - destruct (Z.to_int n) as [d|d]; [destruct d|]; discriminate.
  - simpl in H. apply andb_true_iff in H. exists c, s. now split.
Qed.

(** Reading a rendered integer gives the integer back. *)
Lemma Number_toString_read (n : Z) :
  option_map Z.of_int (NilZero.int_of_string (Number_toString n)) = Some n.
Proof.
  unfold Number_toString.
  pose proof (DecimalZ.of_to n) as Hof.
  destruct (Z.to_int n) as [d|d]; destruct d;
    try (rewrite NilZero.isi by discriminate;
         cbn [option_map]; f_equal; exact Hof).
  - rewrite NilZero.isi_posnil. cbn [option_map]. f_equal. exact Hof.
  - rewrite NilZero.isi_negnil. cbn [option_map]. f_equal. exact Hof.
Qed.

Lemma Number_toString_inj (n m : Z) :
  Number_toString n = Number_toString m -> n = m.
Proof.
  intro H. pose proof (Number_toString_read n) as Hn.
  rewrite H, Number_toString_read in Hn. now injection Hn.
Qed.

(** A run of number characters ends where the tail begins. *)
Lemma allNum_span (a : string) : forall b r r',
  allNum a = true -> allNum b = true -> closedTail r -> closedTail r' ->
  a ++ r = b ++ r' -> a = b /\ r = r'.
Proof.
  induction a as [|x a IH]; intros [|y b] r r' Ha Hb Hr Hr' H; simpl in *.
  - now split.
  - subst r. simpl in Hr. apply andb_true_iff in Hb. destruct Hb. congruence.
  - subst r'. simpl in Hr'. apply andb_true_iff in Ha. destruct Ha. congruence.
  - injection H as -> H.
    apply andb_true_iff in Ha. apply andb_true_iff in Hb.
    destruct (IH b r r') as [-> ->]; tauto.
Qed.

Lemma Number_toString_span (n m : Z) (r r' : string) :
  closedTail r -> closedTail r' ->
  Number_toString n ++ r = Number_toString m ++ r' -> n = m /\ r = r'.
Proof.
  intros Hr Hr' H.
  apply allNum_span in H; auto using Number_toString_allNum.
  destruct H as [H ->]. split; [now apply Number_toString_inj | reflexivity].
Qed.

(* ================================================================== *)
(** ** A serialization is read back in one way *)

Lemma stringify_start (v : value) :
  exists c s, JSON_stringify v = String c s /\ valueStart c = true.
Proof.
  destruct v as [| b | n | s | l | o]; simpl.
  - now exists "n"%char, "ull".
  - destruct b; [now exists "t"%char, "rue" | now exists "f"%char, "alse"].
  - destruct (Number_toString_start n) as [c [s [E Hc]]].
    exists c, s. split; [assumption|]. unfold valueStart. now rewrite Hc.
  - unfold quote. eexists _, _. split; reflexivity.
  - eexists _, _. split; reflexivity.
  - eexists _, _. split; reflexivity.
Qed.

Lemma concat_cons_append {A : Type} (f : A -> string) (x : A) (l : list A)
    (t : string) :
  String.concat "," (map f (x :: l)) ++ t
  = f x ++ match l with
           | [] => t
           | _ :: _ => String "," (String.concat "," (map f l) ++ t)
           end.
Proof.
  destruct l as [|y l]; [reflexivity|].
  cbn [map String.concat]. rewrite append_assoc. reflexivity.
Qed.

Section Members.
Context {A : Type} (f : A -> string) (close : ascii).
Hypothesis f_start :
  forall x, exists c s, f x = String c s /\ valueStart c = true.
Hypothesis close_not_start : valueStart close = false.
Hypothesis close_not_comma : close <> ","%char.

Lemma close_not_num : isNumChar close = false.
Proof.
  unfold valueStart in close_not_start.
  destruct (isNumChar close); [discriminate | reflexivity].
Qed.

Lemma members_tail_closed (l : list A) (r : string) :
  closedTail match l with
             | [] => String close r
             | _ :: _ =>
                 String "," (String.concat "," (map f l) ++ String close r)
             end.
Proof. destruct l; simpl; [apply close_not_num | reflexivity]. Qed.

(** The members of an array or of an object, up to the closing
    bracket. *)
Lemma members_inj (l : list A) :
  Forall (fun x => forall x' T T', closedTail T -> closedTail T' ->
                     f x ++ T = f x' ++ T' -> x = x' /\ T = T') l ->
  forall l' r r',
    String.concat "," (map f l) ++ String close r
    = String.concat "," (map f l') ++ String close r' ->
    l = l' /\ r = r'.
Proof.
  induction 1 as [|x l Hx _ IH]; intros [|x' l'] r r' H.
  - simpl in H. injection H as ->. now split.
  - rewrite concat_cons_append in H. simpl in H.
    destruct (f_start x') as [c [s [E Hc]]]. rewrite E in H. simpl in H.
    injection H as <- _. congruence.
  - rewrite concat_cons_append in H. simpl in H.
    destruct (f_start x) as [c [s [E Hc]]]. rewrite E in H. simpl in H.
    injection H as <- _. congruence.
  - rewrite !concat_cons_append in H.
    apply Hx in H; try apply members_tail_closed.
    destruct H as [<- H]. destruct l as [|y l], l' as [|y' l'].
    + injection H as ->. now split.
    + injection H as H _. now destruct close_not_comma.
    + injection H as H _. now destruct close_not_comma.
    + injection H as H. apply (IH (y' :: l') r r') in H.
      destruct H as [<- ->]. now split.
Qed.

End Members.

Ltac numberStart H :=
  match type of H with
  | context [Number_toString ?n] =>
      let c := fresh "c" in
      let s := fresh "s" in
      let E := fresh "E" in
      let Hc := fresh "Hc" in
      destruct (Number_toString_start n) as [c [s [E Hc]]];
      rewrite E in H; simpl in H; injection H as H;
      subst; vm_compute in Hc; discriminate
  end.

(** A serialized value followed by a closed tail determines the value
    and the tail. *)
Lemma JSON_stringify_span (v : value) : forall v' r r',
  closedTail r -> closedTail r' ->
  JSON_stringify v ++ r = JSON_stringify v' ++ r' -> v = v' /\ r = r'.
Proof.
  induction v as [| b | n | s | l IH | o IH] using value_nested_ind;
    intros [| b' | n' | s' | l' | o'] r r' Hr Hr' H;
    try (simpl in H; try destruct b; try destruct b';
         first [ discriminate H | numberStart H ]).
  - simpl in H. injection H as ->. now split.
  - destruct b, b'; simpl in H; try discriminate H;
      injection H as ->; now split.
  - simpl in H. apply Number_toString_span in H; try assumption.
    destruct H as [-> ->]. now split.
  - simpl in H. apply quote_inj in H. destruct H as [-> ->]. now split.
  - simpl in H. injection H as H. rewrite !append_assoc in H. simpl in H.
    apply (members_inj JSON_stringify "]"%char) in H.
    + destruct H as [-> ->]. now split.
    + apply stringify_start.
    + reflexivity.
    + discriminate.
    + exact IH.
  - simpl in H. injection H as H. rewrite !append_assoc in H. simpl in H.
    apply (members_inj _ "}"%char) in H.
    + destruct H as [-> ->]. now split.
    + intros [k x]. unfold quote. eexists _, _. split; reflexivity.
    + reflexivity.
    + discriminate.
    + eapply Forall_impl; [|exact IH].
      intros [k x] Hx [k' x'] T T' HT HT' E. simpl in Hx.
      change ((quote k ++ (":" ++ JSON_stringify x)) ++ T
              = (quote k' ++ (":" ++ JSON_stringify x')) ++ T') in E.
      rewrite !append_assoc in E. apply quote_inj in E.
      destruct E as [-> E]. simpl in E. injection E as E.
      apply Hx in E; try assumption. destruct E as [-> ->]. now split.
Qed.

(** [JSON.stringify] tells values apart. *)
Lemma JSON_stringify_inj (v v' : value) :
  JSON_stringify v = JSON_stringify v' -> v = v'.
Proof.
  intro H. destruct (JSON_stringify_span v v' EmptyString EmptyString) as [E _];
    try exact I; [now rewrite !append_nil_r | exact E].
Qed.

Lemma stringifyDoc_inj (d d' : doc) : stringifyDoc d = stringifyDoc d' -> d = d'.
Proof.
  intro H. apply JSON_stringify_inj in H. now injection H.
Qed.

(* ================================================================== *)
(** ** Updates *)

Lemma findMatch_unique existingData (d live : doc) (i : string) :
  idString d = Some i ->
  filter (hasId i) existingData = [live] ->
  Part000.findMatch existingData d = Some live.
Proof.
  intros Hid Hold. unfold Part000.findMatch. rewrite Hid.
  change (fun e : doc => strictEq (idString e) (Some i)) with (hasId i).
  now apply filter_single_find.
Qed.

(** C1. An identifier that both sides carry, with fields besides the
    identifier that differ: the pass issues one targeted update for that
    identifier, and it sets the fields of the imported document besides
    its identifier, all of them and nothing else. *)
Theorem C1_changed_document_updated_once
    env coll newData existingData i imported live :
  filter (hasId i) newData = [imported] ->
  filter (hasId i) existingData = [live] ->
  restFields imported <> restFields live ->
  filter (updatesId i) (Part000.reconcile env coll newData existingData)
  = [UpdateOne coll (Part000.queryIdOf env (doc_id imported))
       (restFields imported)].
Proof.
  intros Hnew Hold Hdiff.
  destruct (filter_single_In _ _ _ Hnew) as [_ Hid]. apply hasId_eq in Hid.
  rewrite reconcile_updates_for.
  unfold Part000.toUpdate. rewrite filter_swap, Hnew. cbn [filter].
  rewrite (findMatch_unique existingData imported live i Hid Hold).
  destruct (stringifyDoc live =? stringifyDoc imported) eqn:E.
  - apply String.eqb_eq, stringifyDoc_inj in E. subst live. now destruct Hdiff.
  - reflexivity.
Qed.

(** The first restoration test of the suite: John's age has changed. *)
Lemma C1_changed_document_updated_once_witness :
  filter (updatesId "1")
    (Part000.reconcile (mockEnv mockRoot (Resolved [])) "patients"
       [johnDoe 26] [johnDoe 25])
  = [UpdateOne "patients" (QPlain (Some (JStr "1")))
       [("name", JStr "John Doe"); ("age", JNum 26)]].
Proof.
  apply (C1_changed_document_updated_once (mockEnv mockRoot (Resolved []))
           "patients" [johnDoe 26] [johnDoe 25] "1" (johnDoe 26) (johnDoe 25));
    [reflexivity | reflexivity | discriminate].
Defined.

(** The earlier revision issues no targeted update at all. *)
Lemma earlier_revision_never_updates coll newData existingData :
  filter isUpdateOne (ScriptsBackup.reconcile coll newData existingData) = [].
Proof.
  unfold ScriptsBackup.reconcile.
  destruct (ScriptsBackup.toInsert newData existingData);
    destruct (ScriptsBackup.toDelete newData existingData); reflexivity.
Qed.

(* ================================================================== *)
(** ** Running a pass twice *)

(** C3, as the specification has it, fails: [$set] leaves a field that
    the snapshot lacks where it is, so the second pass finds the same
    difference and issues the same update. *)
Lemma C3_counterexample : ~ idempotent.
Proof.
  intro H.
  specialize (H (mockEnv mockRoot (Resolved [])) "patients"
                [johnDoe 25] [johnWithNickname]).
  assert (forall d : doc, wellKeyed [d] <-> Boolean (idString d) = true) as W.
  { intro d. unfold wellKeyed. split.
    - intros [_ Hb]. apply Hb. now left.
    - intro Hb. split.
      + constructor; [intros [] | constructor].
      + intros x [<-|[]]. assumption. }
  assert (wellKeyed [johnDoe 25]) as W1 by (now apply W).
  assert (wellKeyed [johnWithNickname]) as W2 by (now apply W).
  specialize (H W1 W2). vm_compute in H. discriminate H.
Qed.

Lemma runOn_app (es1 es2 : list event) (docs : list doc) :
  runOn (es1 ++ es2)%list docs = runOn es2 (runOn es1 docs).
Proof. apply fold_left_app. Qed.

Lemma filter_keep_all (docs : list doc) :
  filter (fun d => negb (matchesIn [] d)) docs = docs.
Proof.
  transitivity (filter (fun _ : doc => true) docs);
    [apply filter_ext; reflexivity | apply filter_true].
Qed.

Lemma runOn_insert coll (ins docs : list doc) :
  runOn (if (0 <? List.length ins)%nat then [InsertMany coll ins] else []) docs
  = (docs ++ ins)%list.
Proof. destruct ins; simpl; [now rewrite app_nil_r | reflexivity]. Qed.

Lemma runOn_delete coll (del docs : list doc) :
  runOn (if (0 <? List.length del)%nat
         then [DeleteMany coll (map doc_id del)] else []) docs
  = filter (fun d => negb (matchesIn (map doc_id del) d)) docs.
Proof. destruct del; simpl; [now rewrite filter_keep_all | reflexivity]. Qed.

(** A pass serves its bulk writes, then its targeted updates. *)
Lemma runOn_reconcile env coll newData existingData :
  runOn (Part000.reconcile env coll newData existingData) existingData
  = runOn (map (Part000.updateOf env coll)
             (Part000.toUpdate newData existingData))
          (afterBulk newData existingData).
Proof.
  unfold Part000.reconcile, afterBulk. cbv zeta.
  destruct ((List.length (Part000.toInsert newData existingData) =? 0)%nat
            && (List.length (Part000.toDelete newData existingData) =? 0)%nat
            && (List.length (Part000.toUpdate newData existingData) =? 0)%nat)
    eqn:C.
  - apply andb_true_iff in C. destruct C as [C Cu].
    apply andb_true_iff in C. destruct C as [Ci Cd].
    apply length_zero_nil in Ci, Cd, Cu. rewrite Ci, Cd, Cu. simpl.
    now rewrite filter_keep_all, app_nil_r.
  - rewrite !runOn_app, runOn_insert, runOn_delete. reflexivity.
Qed.

(* ------------------------------------------------------------------ *)
(** *** Lists keyed by identifier *)

(** Filtering a set keeps its identifiers apart. *)
Lemma filter_keeps_ids_apart (keep : doc -> bool) (data : list doc) :
  NoDup (map idString data) -> NoDup (map idString (filter keep data)).
Proof.
  intro H. induction data as [|d data IH]; [exact H|].
  apply NoDup_cons_iff in H. destruct H as [Hfresh Hrest].
  cbn [filter]. destruct (keep d); [|now apply IH].
  cbn [map]. apply NoDup_cons_iff. split; [|now apply IH].
  intro Hin. apply Hfresh. apply in_map_iff in Hin.
  destruct Hin as [e [He Hin]]. apply filter_In in Hin.
  apply in_map_iff. exists e. tauto.
Qed.

(** Two documents of a set with one identifier are one document. *)
Lemma same_id_same_doc (data : list doc) (a b : doc) :
  NoDup (map idString data) -> In a data -> In b data ->
  idString a = idString b -> a = b.
Proof.
  intros H Ha Hb E. induction data as [|d data IH]; [destruct Ha|].
  apply NoDup_cons_iff in H. destruct H as [Hfresh Hrest].
  destruct Ha as [->|Ha], Hb as [->|Hb].
  - reflexivity.
  - exfalso. apply Hfresh. rewrite E. now apply in_map.
  - exfalso. apply Hfresh. rewrite <- E. now apply in_map.
  - now apply IH.
Qed.

(** Looking a document up by its own identifier finds it. *)
Lemma findMatch_self (data : list doc) (d : doc) :
  NoDup (map idString data) -> In d data ->
  Part000.findMatch data d = Some d.
Proof.
  unfold Part000.findMatch.
  induction data as [|a l IH]; simpl; intros H Hd; [destruct Hd|].
  inversion H as [|y ys Hnot Hrest]; subst.
  destruct (strictEq (idString a) (idString d)) eqn:E.
  - apply strictEq_eq in E. destruct Hd as [->|Hd]; [reflexivity|].
    exfalso. apply Hnot. rewrite E. now apply in_map.
  - destruct Hd as [->|Hd]; [now rewrite strictEq_refl in E | now apply IH].
Qed.

Lemma findMatch_some (data : list doc) (d m : doc) :
  Part000.findMatch data d = Some m -> In m data /\ idString m = idString d.
Proof.
  unfold Part000.findMatch. intro H. apply find_some in H.
  destruct H as [Hin E]. apply strictEq_eq in E. now split.
Qed.

(** The first document that a test selects, replaced. *)
Lemma updateFirst_replace (p : doc -> bool) (f : doc -> doc)
    (docs : list doc) (m : doc) :
  NoDup (map idString docs) ->
  In m docs ->
  p m = true ->
  (forall d, In d docs -> p d = true -> idString d = idString m) ->
  idString (f m) = idString m ->
  map idString (updateFirst p f docs) = map idString docs /\
  In (f m) (updateFirst p f docs) /\
  (forall d, In d docs -> d <> m -> In d (updateFirst p f docs)).
Proof.
  intros Hnd Hm Hpm Hp Hf.
  induction docs as [|a l IH]; simpl; [destruct Hm|].
  inversion Hnd as [|y ys Hnot Hrest]; subst.
  destruct (p a) eqn:Pa.
  - assert (a = m) as ->.
    { destruct Hm as [Hm|Hm]; [assumption|]. exfalso. apply Hnot.
      rewrite (Hp a (or_introl eq_refl) Pa). now apply in_map. }
    simpl. rewrite Hf. repeat split.
    + now left.
    + intros d [Hd|Hd] Hne; [congruence | now right].
  - assert (In m l) as Hml by (destruct Hm as [->|Hm]; [congruence | assumption]).
    destruct IH as [IH1 [IH2 IH3]]; try assumption.
    { intros d Hd. apply Hp. now right. }
    simpl. rewrite IH1. repeat split.
    + now right.
    + intros d [Hd|Hd] Hne; [now left | right; now apply IH3].
Qed.

Lemma matchesQuery_idString env (u d : doc) :
  matchesQuery (Part000.queryIdOf env (doc_id u)) d = true ->
  idString d = idString u.
Proof.
  unfold Part000.queryIdOf, idString.
  destruct (doc_id u) as [v|]; [destruct (ObjectId_isValid env v)|]; simpl;
    try discriminate; apply idMatches_optToString.
Qed.

(* ------------------------------------------------------------------ *)
(** *** The targeted updates of a pass *)

(** What it takes for the update issued for [u] to turn [m] into [u]. *)
Lemma update_reaches env coll (u m : doc) :
  m <> u ->
  applyToDocs (Part000.updateOf env coll u) [m] = [u] ->
  matchesQuery (Part000.queryIdOf env (doc_id u)) m = true /\
  applySet (restFields u) m = u.
Proof.
  intros Hne H. simpl in H.
  destruct (matchesQuery (Part000.queryIdOf env (doc_id u)) m).
  - injection H as H. now split.
  - injection H as H. contradiction.
Qed.

(** Served one after the other, the updates put every document of
    [us] in the place of its live match, keep the identifiers where
    they are and leave the other documents alone. *)
Lemma runOn_updates env coll (us : list doc) : forall docs,
  NoDup (map idString us) ->
  NoDup (map idString docs) ->
  (forall u, In u us ->
     exists m, In m docs /\ idString m = idString u /\ m <> u /\
               applyToDocs (Part000.updateOf env coll u) [m] = [u]) ->
  map idString (runOn (map (Part000.updateOf env coll) us) docs)
    = map idString docs /\
  (forall u, In u us -> In u (runOn (map (Part000.updateOf env coll) us) docs)) /\
  (forall d, In d docs -> ~ In (idString d) (map idString us) ->
             In d (runOn (map (Part000.updateOf env coll) us) docs)).
Proof.
  induction us as [|u us IH]; intros docs Hus Hdocs Hreach.
  - simpl. repeat split; [intros u [] | auto].
  - inversion Hus as [|x xs Hnot Hrest]; subst.
    destruct (Hreach u (or_introl eq_refl)) as [m [Hm [Hid [Hne Happ]]]].
    destruct (update_reaches env coll u m Hne Happ) as [Hq Hset].
    destruct (updateFirst_replace
                (matchesQuery (Part000.queryIdOf env (doc_id u)))
                (applySet (restFields u)) docs m Hdocs Hm Hq)
      as [S1 [S2 S3]].
    { intros d _ Hd. apply matchesQuery_idString in Hd. congruence. }
    { rewrite Hset. congruence. }
    rewrite Hset in S2.
    change (runOn (map (Part000.updateOf env coll) (u :: us)) docs)
      with (runOn (map (Part000.updateOf env coll) us)
              (updateFirst (matchesQuery (Part000.queryIdOf env (doc_id u)))
                 (applySet (restFields u)) docs)).
    destruct (IH (updateFirst (matchesQuery (Part000.queryIdOf env (doc_id u)))
                    (applySet (restFields u)) docs))
      as [I1 [I2 I3]]; try assumption.
    { now rewrite S1. }
    { intros u' Hu'.
      destruct (Hreach u' (or_intror Hu')) as [m' [Hm' [Hid' [Hne' Happ']]]].
      exists m'. repeat split; try assumption.
      apply S3; [assumption|]. intros ->. apply Hnot.
      rewrite <- Hid, Hid'. now apply in_map. }
    repeat split.
    + now rewrite I1, S1.
    + intros x [<-|Hx]; [|now apply I2]. now apply I3.
    + intros d Hd Hfree. apply I3.
      * apply S3; [assumption|]. intros ->. apply Hfree. left. congruence.
      * intro Hin. apply Hfree. now right.
Qed.

(* ------------------------------------------------------------------ *)
(** *** The live documents after the bulk writes *)

Lemma toUpdate_In newData existingData d :
  In d (Part000.toUpdate newData existingData) <->
  In d newData /\
  exists m, Part000.findMatch existingData d = Some m /\
            stringifyDoc m <> stringifyDoc d.
Proof.
  unfold Part000.toUpdate. rewrite filter_In. split.
  - intros [Hd H]. split; [assumption|].
    destruct (Part000.findMatch existingData d) as [m|]; [|discriminate].
    exists m. split; [reflexivity|].
    apply negb_true_iff in H. now apply String.eqb_neq.
  - intros [Hd [m [-> H]]]. split; [assumption|].
    apply negb_true_iff. now apply String.eqb_neq.
Qed.

Lemma wellKeyed_listed (data : list doc) (d : doc) :
  wellKeyed data -> In d data -> In (idString d) (idsOf data).
Proof.
  intros [_ Hb] Hd. apply idsOf_In. split; [now apply Hb | now exists d].
Qed.

(** The bulk delete selects a live document when no imported document
    carries its identifier, and then only. *)
Lemma live_selected newData existingData e :
  In e existingData ->
  matchesIn (map doc_id (Part000.toDelete newData existingData)) e
  = negb (includes (idsOf newData) (idString e)).
Proof.
  revert e. apply filter_ext_in_iff. apply bulk_delete_selects_toDelete.
Qed.

(** The bulk delete selects no document that the bulk insert has just
    added. *)
Lemma inserted_not_selected newData existingData d :
  wellKeyed existingData ->
  In d (Part000.toInsert newData existingData) ->
  matchesIn (map doc_id (Part000.toDelete newData existingData)) d = false.
Proof.
  intros HE Hd. destruct (matchesIn _ d) eqn:M; [|reflexivity]. exfalso.
  unfold matchesIn in M. apply existsb_exists in M.
  destruct M as [x [Hx Hm]]. apply in_map_iff in Hx.
  destruct Hx as [e [<- He]]. apply idMatches_optToString in Hm.
  apply toDelete_In in He. destruct He as [He _].
  apply toInsert_In in Hd. destruct Hd as [_ Hd]. apply Hd.
  unfold idString at 1. rewrite Hm. now apply wellKeyed_listed.
Qed.

Lemma afterBulk_In newData existingData d :
  wellKeyed existingData ->
  In d (afterBulk newData existingData) <->
  (In d existingData /\ In (idString d) (idsOf newData)) \/
  In d (Part000.toInsert newData existingData).
Proof.
  intro HE. unfold afterBulk. rewrite filter_In, in_app_iff. split.
  - intros [[Hd|Hd] Hk]; [left | now right].
    split; [assumption|]. rewrite live_selected in Hk by assumption.
    rewrite negb_involutive in Hk. now apply includes_In.
  - intros [[Hd Hid]|Hd].
    + split; [now left|]. rewrite live_selected by assumption.
      rewrite negb_involutive. now apply includes_In.
    + split; [now right|]. now rewrite inserted_not_selected.
Qed.

Lemma afterBulk_NoDup newData existingData :
  wellKeyed newData -> wellKeyed existingData ->
  NoDup (map idString (afterBulk newData existingData)).
Proof.
  intros HN HE. unfold afterBulk. apply filter_keeps_ids_apart.
  rewrite map_app. apply NoDup_app.
  - apply HE.
  - unfold Part000.toInsert. apply filter_keeps_ids_apart. apply HN.
  - intros x Hx Hx'. apply in_map_iff in Hx. destruct Hx as [e [<- He]].
    apply in_map_iff in Hx'. destruct Hx' as [d [Hid Hd]].
    apply toInsert_In in Hd. destruct Hd as [_ Hd]. apply Hd.
    rewrite Hid. now apply wellKeyed_listed.
Qed.

Lemma afterBulk_listed newData existingData e :
  wellKeyed newData -> wellKeyed existingData ->
  In e (afterBulk newData existingData) -> In (idString e) (idsOf newData).
Proof.
  intros HN HE He. apply afterBulk_In in He; [|assumption].
  destruct He as [[_ H]|H]; [assumption|].
  apply toInsert_In in H. destruct H as [H _]. now apply wellKeyed_listed.
Qed.

Lemma afterBulk_match newData existingData u m :
  wellKeyed newData -> wellKeyed existingData ->
  In u newData ->
  Part000.findMatch existingData u = Some m ->
  In m (afterBulk newData existingData).
Proof.
  intros HN HE Hu Hm. apply findMatch_some in Hm. destruct Hm as [Hm Hid].
  apply afterBulk_In; [assumption|]. left. split; [assumption|].
  rewrite Hid. now apply wellKeyed_listed.
Qed.

(** An imported document that needs no update is there after the bulk
    writes. *)
Lemma afterBulk_settled newData existingData d :
  wellKeyed newData -> wellKeyed existingData ->
  In d newData ->
  ~ In d (Part000.toUpdate newData existingData) ->
  In d (afterBulk newData existingData).
Proof.
  intros HN HE Hd Hnot. apply afterBulk_In; [assumption|].
  destruct (includes (idsOf existingData) (idString d)) eqn:C.
  - left. apply includes_In, idsOf_In in C. destruct C as [_ [e [He Hid]]].
    assert (Part000.findMatch existingData d = Some e) as Hfind.
    { unfold Part000.findMatch. rewrite <- Hid.
      apply findMatch_self; [apply HE | assumption]. }
    destruct (String.eqb_spec (stringifyDoc e) (stringifyDoc d)) as [E|E].
    + apply stringifyDoc_inj in E. subst e. split; [assumption|].
      now apply wellKeyed_listed.
    + exfalso. apply Hnot. apply toUpdate_In. split; [assumption|]. now exists e.
  - right. apply toInsert_In. split; [assumption|].
    rewrite <- includes_In. now rewrite C.
Qed.

(* ------------------------------------------------------------------ *)
(** *** When [$set] turns the live document into the imported one *)

Section Keyed.
Context {A K : Type} (key : A -> K).

Lemma keys_apart_filter (keep : A -> bool) (l : list A) :
  NoDup (map key l) -> NoDup (map key (filter keep l)).
Proof.
  intro H. induction l as [|a l IH]; [exact H|].
  apply NoDup_cons_iff in H. destruct H as [Hfresh Hrest].
  cbn [filter]. destruct (keep a); [|now apply IH].
  cbn [map]. apply NoDup_cons_iff. split; [|now apply IH].
  intro Hin. apply Hfresh. apply in_map_iff in Hin.
  destruct Hin as [b [Hb Hin]]. apply filter_In in Hin.
  apply in_map_iff. exists b. tauto.
Qed.

End Keyed.

Lemma getField_cons (k k' : string) (v : value) (d : doc) :
  getField k ((k', v) :: d) = if k' =? k then Some v else getField k d.
Proof. unfold getField. simpl. now destruct (k' =? k). Qed.

Lemma getField_None (k : string) (d : doc) :
  getField k d = None <-> ~ In k (map fst d).
Proof.
  induction d as [|[k' v] d IH]; [simpl; tauto|].
  rewrite getField_cons. simpl. destruct (String.eqb_spec k' k) as [->|Hne].
  - split; [discriminate | intro H; exfalso; apply H; now left].
  - rewrite IH. tauto.
Qed.

Lemma getField_setField (k k' : string) (v : value) (d : doc) :
  getField k (setField k' v d)
  = if k' =? k then Some v else getField k d.
Proof.
  induction d as [|[k0 v0] d IH]; simpl.
  - rewrite getField_cons. reflexivity.
  - destruct (String.eqb_spec k0 k') as [->|Hne]; rewrite !getField_cons.
    + now destruct (k' =? k).
    + rewrite IH. destruct (String.eqb_spec k0 k) as [->|Hne'];
        [|reflexivity].
      destruct (String.eqb_spec k' k) as [->|_]; [now destruct Hne | reflexivity].
Qed.

Lemma keys_setField (k : string) (v : value) (d : doc) :
  In k (map fst d) -> map fst (setField k v d) = map fst d.
Proof.
  induction d as [|[k0 v0] d IH]; simpl; [tauto|].
  destruct (String.eqb_spec k0 k) as [->|Hne]; simpl; [reflexivity|].
  intros [H|H]; [contradiction | now rewrite IH].
Qed.

(** [$set] on fields that the document has: the field names stay as
    they are and each one reads as set, or as before. *)
Lemma applySet_spec (fields : doc) : forall (d : doc),
  NoDup (map fst fields) ->
  (forall k, In k (map fst fields) -> In k (map fst d)) ->
  map fst (applySet fields d) = map fst d /\
  forall k, getField k (applySet fields d)
            = match getField k fields with
              | Some v => Some v
              | None => getField k d
              end.
Proof.
  induction fields as [|[k0 v0] fields IH]; intros d Hnd Hin.
  - now split.
  - cbn [map fst] in Hnd.
    apply NoDup_cons_iff in Hnd. destruct Hnd as [Hfresh Hnd].
    assert (In k0 (map fst d)) as Hk0 by (apply Hin; now left).
    destruct (IH (setField k0 v0 d) Hnd) as [IH1 IH2].
    { intros k Hk. rewrite keys_setField by assumption. apply Hin. now right. }
    change (applySet ((k0, v0) :: fields) d)
      with (applySet fields (setField k0 v0 d)).
    split; [now rewrite IH1, keys_setField|].
    intro k. rewrite IH2, getField_setField, getField_cons.
    destruct (String.eqb_spec k0 k) as [->|Hne]; [|reflexivity].
    apply getField_None in Hfresh. now rewrite Hfresh.
Qed.

Lemma getField_restFields (k : string) (d : doc) :
  getField k (restFields d)
  = if k =? "_id" then None else getField k d.
Proof.
  unfold restFields. induction d as [|[k0 v0] d IH]; simpl.
  - now destruct (k =? "_id").
  - destruct (String.eqb_spec k0 "_id") as [->|Hne]; simpl;
      rewrite !getField_cons, IH.
    + rewrite (String.eqb_sym "_id" k). now destruct (k =? "_id").
    + destruct (String.eqb_spec k0 k) as [->|_]; [|reflexivity].
      destruct (String.eqb_spec k "_id") as [->|_];
        [now destruct Hne | reflexivity].
Qed.

(** A document is its field names in order and what each one reads. *)
Lemma doc_ext (a : doc) : forall (b : doc),
  map fst a = map fst b ->
  NoDup (map fst a) ->
  (forall k, getField k a = getField k b) ->
  a = b.
Proof.
  induction a as [|[k x] a IH]; intros [|[k' y] b] Hk Hnd Hget;
    try discriminate; [reflexivity|].
  cbn [map fst] in Hk, Hnd. injection Hk as <- Hk.
  apply NoDup_cons_iff in Hnd. destruct Hnd as [Hfresh Hnd].
  pose proof (Hget k) as Hhead. rewrite !getField_cons, String.eqb_refl in Hhead.
  injection Hhead as <-. f_equal. apply IH; try assumption.
  intro q. pose proof (Hget q) as Hq. rewrite !getField_cons in Hq.
  destruct (String.eqb_spec k q) as [E|_]; [subst q | assumption].
  pose proof Hfresh as Hfresh'. rewrite Hk in Hfresh'.
  apply getField_None in Hfresh, Hfresh'. congruence.
Qed.

(** With the field names of the imported document, in its order, none
    twice, and its identifier, a live document becomes the imported one
    under [$set]. *)
Lemma applySet_same_fields (d m : doc) :
  map fst d = map fst m ->
  NoDup (map fst m) ->
  doc_id d = doc_id m ->
  applySet (restFields d) m = d.
Proof.
  intros Hk Hnd Hid.
  destruct (applySet_spec (restFields d) m) as [S1 S2].
  - unfold restFields. apply keys_apart_filter. now rewrite Hk.
  - intros k Hin. rewrite <- Hk. unfold restFields in Hin.
    apply in_map_iff in Hin. destruct Hin as [kv [<- Hin]].
    apply filter_In in Hin. apply in_map. tauto.
  - apply doc_ext.
    + now rewrite S1.
    + now rewrite S1.
    + intro k. rewrite S2, getField_restFields.
      destruct (String.eqb_spec k "_id") as [->|_]; [now symmetry|].
      destruct (getField k d) eqn:G; [reflexivity|].
      apply getField_None. rewrite <- Hk. now apply getField_None.
Qed.

(** The update issued for such a document reaches it, as long as the
    identifier is not turned into an object id. *)
Lemma same_fields_update_reaches env coll (d m : doc) :
  map fst d = map fst m ->
  NoDup (map fst m) ->
  doc_id d = doc_id m ->
  (forall v, doc_id d = Some v -> ObjectId_isValid env v = false) ->
  applyToDocs (Part000.updateOf env coll d) [m] = [d].
Proof.
  intros Hk Hnd Hid Hplain.
  assert (matchesQuery (Part000.queryIdOf env (doc_id d)) m = true) as Q.
  { unfold Part000.queryIdOf, matchesQuery.
    destruct (doc_id d) as [v|] eqn:E.
    - rewrite (Hplain v eq_refl). rewrite <- Hid. apply idMatches_refl.
    - rewrite <- Hid. reflexivity. }
  unfold Part000.updateOf. cbn [applyToDocs updateFirst]. rewrite Q.
  now rewrite applySet_same_fields.
Qed.

(* ------------------------------------------------------------------ *)
(** *** The second pass *)

(** Where a pass leaves the collection when each of its updates turns
    the live document into the imported one: every imported document
    is there, nothing else is, and no identifier comes twice. *)
Lemma runOn_reconcile_settles env coll newData existingData :
  wellKeyed newData ->
  wellKeyed existingData ->
  (forall d m,
     In d (Part000.toUpdate newData existingData) ->
     Part000.findMatch existingData d = Some m ->
     applyToDocs (Part000.updateOf env coll d) [m] = [d]) ->
  let after :=
    runOn (Part000.reconcile env coll newData existingData) existingData in
  (forall d, In d newData -> In d after) /\
  (forall e, In e after -> In (idString e) (idsOf newData)) /\
  NoDup (map idString after).
Proof.
  intros HN HE Hreach after. subst after. rewrite runOn_reconcile.
  destruct (runOn_updates env coll (Part000.toUpdate newData existingData)
              (afterBulk newData existingData)) as [R1 [R2 R3]].
  - unfold Part000.toUpdate. apply filter_keeps_ids_apart. apply HN.
  - now apply afterBulk_NoDup.
  - intros u Hu. pose proof Hu as Hu'. apply toUpdate_In in Hu'.
    destruct Hu' as [HuN [m [Hm Hne]]]. exists m. repeat split.
    + now apply (afterBulk_match newData existingData u m).
    + now apply findMatch_some in Hm.
    + intros ->. now apply Hne.
    + now apply Hreach.
  - repeat split.
    + intros d Hd.
      destruct (existsb (fun u => strictEq (idString u) (idString d))
                  (Part000.toUpdate newData existingData)) eqn:X.
      * apply existsb_exists in X. destruct X as [u [Hu E]].
        apply strictEq_eq in E.
        assert (u = d) as <-; [|now apply R2].
        apply (same_id_same_doc newData); try assumption; [apply HN|].
        now apply toUpdate_In in Hu.
      * assert (~ In (idString d)
                  (map idString (Part000.toUpdate newData existingData))) as F.
        { intro Hin. apply in_map_iff in Hin. destruct Hin as [u [E Hu]].
          assert (existsb (fun u => strictEq (idString u) (idString d))
                    (Part000.toUpdate newData existingData) = true) as T.
          { apply existsb_exists. exists u. split; [assumption|].
            now apply strictEq_eq. }
          congruence. }
        apply R3; [|assumption]. apply afterBulk_settled; try assumption.
        intro Hu. apply F. now apply in_map.
    + intros e He. apply (in_map idString) in He. rewrite R1 in He.
      apply in_map_iff in He. destruct He as [e' [<- He']].
      now apply (afterBulk_listed newData existingData).
    + rewrite R1. now apply afterBulk_NoDup.
Qed.

(** A pass over a collection that holds every imported document,
    nothing under another identifier and no identifier twice has
    nothing to do. *)
Lemma settled_pass_is_idle env coll newData after :
  wellKeyed newData ->
  (forall d, In d newData -> In d after) ->
  (forall e, In e after -> In (idString e) (idsOf newData)) ->
  NoDup (map idString after) ->
  Part000.reconcile env coll newData after
  = [ConsoleLog ("Collection '" ++ coll ++ "' is already up-to-date")].
Proof.
  intros HN A B C.
  assert (Part000.toInsert newData after = []) as Hi.
  { apply filter_all_false. intros d Hd. apply negb_false_iff.
    apply includes_In, idsOf_In. split; [now apply HN|].
    exists d. split; [now apply A | reflexivity]. }
  assert (Part000.toDelete newData after = []) as Hd.
  { apply filter_all_false. intros e He. apply negb_false_iff.
    apply includes_In. now apply B. }
  assert (Part000.toUpdate newData after = []) as Hu.
  { apply filter_all_false. intros d Hd'.
    rewrite (findMatch_self after d C (A d Hd')).
    now rewrite String.eqb_refl. }
  unfold Part000.reconcile. now rewrite Hi, Hd, Hu.
Qed.

(** C3, amended. With identifiers that are non-empty and unique within
    each set, and a first pass whose every targeted update turns the
    live document it is issued for into the imported one, a second pass
    over what the first one left finds the collection up to date and
    issues no insert, no update and no delete. *)
Theorem C3_second_pass_is_idle env coll newData existingData :
  wellKeyed newData ->
  wellKeyed existingData ->
  (forall d m,
     In d (Part000.toUpdate newData existingData) ->
     Part000.findMatch existingData d = Some m ->
     applyToDocs (Part000.updateOf env coll d) [m] = [d]) ->
  Part000.reconcile env coll newData
    (runOn (Part000.reconcile env coll newData existingData) existingData)
  = [ConsoleLog ("Collection '" ++ coll ++ "' is already up-to-date")] /\
  filter isWrite
    (Part000.reconcile env coll newData
       (runOn (Part000.reconcile env coll newData existingData) existingData))
  = [].
Proof.
  intros HN HE Hreach.
  destruct (runOn_reconcile_settles env coll newData existingData HN HE Hreach)
    as [A [B C]].
  rewrite (settled_pass_is_idle env coll newData _ HN A B C).
  split; reflexivity.
Qed.

(** One pass that inserts Jane, deletes Mary and updates John; the
    next one has nothing to do. *)
Lemma C3_second_pass_is_idle_witness :
  filter isWrite
    (Part000.reconcile (mockEnv mockRoot (Resolved [])) "patients"
       [johnDoe 26; janeSmith]
       (runOn (Part000.reconcile (mockEnv mockRoot (Resolved [])) "patients"
                 [johnDoe 26; janeSmith] [johnDoe 25; maryJones])
              [johnDoe 25; maryJones]))
  = [].
Proof.
  apply (C3_second_pass_is_idle (mockEnv mockRoot (Resolved [])) "patients"
           [johnDoe 26; janeSmith] [johnDoe 25; maryJones]).
  - split.
    + repeat constructor; simpl; intuition discriminate.
    + intros d [<-|[<-|[]]]; reflexivity.
  - split.
    + repeat constructor; simpl; intuition discriminate.
    + intros d [<-|[<-|[]]]; reflexivity.
  - intros d m [<-|[]] Hm. vm_compute in Hm. injection Hm as <-. reflexivity.
Defined.

(** The second pass has nothing to do when every live document that
    shares its identifier with an imported one has the field names of
    the imported one, in its order, and the same identifier, which is
    not turned into an object id. *)
Lemma second_pass_is_idle_same_fields env coll newData existingData :
  wellKeyed newData ->
  wellKeyed existingData ->
  (forall d m, In d newData -> In m existingData ->
     idString d = idString m ->
     map fst d = map fst m /\ NoDup (map fst m) /\ doc_id d = doc_id m) ->
  (forall d v, In d newData -> doc_id d = Some v ->
     ObjectId_isValid env v = false) ->
  Part000.reconcile env coll newData
    (runOn (Part000.reconcile env coll newData existingData) existingData)
  = [ConsoleLog ("Collection '" ++ coll ++ "' is already up-to-date")].
Proof.
  intros HN HE Hshape Hplain.
  destruct (runOn_reconcile_settles env coll newData existingData HN HE)
    as [A [B C]].
  - intros d m Hd Hm. apply toUpdate_In in Hd. destruct Hd as [Hd _].
    apply findMatch_some in Hm. destruct Hm as [Hm Hid].
    destruct (Hshape d m Hd Hm (eq_sym Hid)) as [S1 [S2 S3]].
    apply same_fields_update_reaches; try assumption.
    intros v. now apply Hplain.
  - now apply settled_pass_is_idle.
Qed.

(* ================================================================== *)
(** ** Snapshot names, once more *)

Lemma fourDigitYears_In (y : Z) : (1000 <= y <= 9999)%Z -> In y fourDigitYears.
Proof.
  intro H. unfold fourDigitYears. apply in_map_iff.
  exists (Z.to_nat (y - 1000)). split.
  - rewrite Z2Nat.id; lia.
  - apply in_seq. change (90 * 100)%nat with (Z.to_nat 9000). lia.
Qed.

Lemma twoDigitsShape_holds : twoDigitsShape = true.
Proof. vm_compute. reflexivity. Qed.

(** A year of four digits prints as four digits. *)
Lemma fourDigitsShape_holds (y : Z) :
  In y fourDigitYears ->
  (String.length (Number_toString y) =? 4)%nat && allDigits (Number_toString y)
  = true.
Proof.
  revert y. apply forallb_forall. vm_compute. reflexivity.
Qed.

Lemma pad2_shape (n : Z) :
  (0 <= n <= 99)%Z ->
  exists a b, pad2 n = String a (String b EmptyString) /\
              isDigit a = true /\ isDigit b = true.
Proof.
  intro H. pose proof twoDigitsShape_holds as A. unfold twoDigitsShape in A.
  rewrite forallb_forall in A. specialize (A n (twoDigits_In n H)).
  apply andb_true_iff in A. destruct A as [L D].
  destruct (pad2 n) as [|a [|b [|c s]]]; try discriminate L.
  cbn [allDigits] in D.
  do 2 (apply andb_true_iff in D; destruct D as [? D]).
  exists a, b. repeat split; assumption.
Qed.

Lemma year_shape (y : Z) :
  (1000 <= y <= 9999)%Z ->
  exists a b c d,
    Number_toString y = String a (String b (String c (String d EmptyString))) /\
    isDigit a = true /\ isDigit b = true /\ isDigit c = true /\ isDigit d = true.
Proof.
  intro H.
  pose proof (fourDigitsShape_holds y (fourDigitYears_In y H)) as A.
  apply andb_true_iff in A. destruct A as [L D].
  destruct (Number_toString y) as [|a [|b [|c [|d [|e s]]]]];
    try discriminate L.
  cbn [allDigits] in D.
  do 4 (apply andb_true_iff in D; destruct D as [? D]).
  exists a, b, c, d. repeat split; assumption.
Qed.

Lemma validTime_bounds (t : LocalTime) :
  validTime t = true ->
  (0 <= getMonth t + 1 <= 99 /\ 0 <= getDate t <= 99 /\
   1000 <= getFullYear t <= 9999 /\ 0 <= getHours t <= 99 /\
   0 <= getMinutes t <= 99 /\ 0 <= getSeconds t <= 99)%Z.
Proof.
  unfold validTime. intro V.
  repeat (apply andb_true_iff in V; destruct V as [V ?]).
  repeat match goal with
         | H : (_ <=? _)%Z = true |- _ => apply Z.leb_le in H
         end.
  lia.
Qed.

Lemma getTimestamp_pad2 (t : LocalTime) :
  getTimestamp t
  = "backup_" ++ pad2 (getMonth t + 1) ++ pad2 (getDate t)
      ++ Number_toString (getFullYear t) ++ "_"
      ++ pad2 (getHours t) ++ pad2 (getMinutes t) ++ pad2 (getSeconds t).
Proof. reflexivity. Qed.

(** The name of a snapshot taken at a calendar time has the fixed
    layout [backup_MMDDYYYY_HHMMSS]: the prefix that [loadBackup] looks
    for, eight digits, an underscore and six digits. *)
Theorem getTimestamp_layout (t : LocalTime) :
  validTime t = true -> isSnapshotName (getTimestamp t) = true.
Proof.
  intro V. apply validTime_bounds in V.
  destruct V as [Hmo [Hd [Hy [Hh [Hmi Hs]]]]].
  rewrite getTimestamp_pad2.
  destruct (pad2_shape _ Hmo) as [m1 [m2 [-> [? ?]]]].
  destruct (pad2_shape _ Hd) as [d1 [d2 [-> [? ?]]]].
  destruct (year_shape _ Hy) as [y1 [y2 [y3 [y4 [-> [? [? [? ?]]]]]]]].
  destruct (pad2_shape _ Hh) as [h1 [h2 [-> [? ?]]]].
  destruct (pad2_shape _ Hmi) as [i1 [i2 [-> [? ?]]]].
  destruct (pad2_shape _ Hs) as [s1 [s2 [-> [? ?]]]].
  unfold isSnapshotName. cbn.
  repeat match goal with H : isDigit _ = true |- _ => rewrite H; clear H end.
  reflexivity.
Qed.

Lemma getTimestamp_layout_witness :
  isSnapshotName (getTimestamp testDate) = true.
Proof. apply getTimestamp_layout. reflexivity. Defined.

Lemma append_eq_same_length (x : string) : forall y s t,
  String.length x = String.length y -> x ++ s = y ++ t -> x = y /\ s = t.
Proof.
  induction x as [|c x IH]; intros [|c' y] s t L H; simpl in *;
    try discriminate; [now split|].
  injection H as -> H. injection L as L.
  destruct (IH y s t L H) as [-> ->]. now split.
Qed.

Lemma compare_refl (s : string) : String.compare s s = Eq.
Proof.
  induction s as [|c s IH]; simpl; [reflexivity|].
  now rewrite ascii_compare_refl.
Qed.

Lemma pad2_inj (n m : Z) :
  (0 <= n <= 99)%Z -> (0 <= m <= 99)%Z -> pad2 n = pad2 m -> n = m.
Proof.
  intros Hn Hm E.
  destruct (Z.lt_trichotomy n m) as [L|[L|L]]; [|assumption|].
  - pose proof (pad2_lt n m Hn Hm L) as C.
    rewrite E, compare_refl in C. discriminate.
  - pose proof (pad2_lt m n Hm Hn L) as C.
    rewrite E, compare_refl in C. discriminate.
Qed.

Lemma pad2_split (n m : Z) (s t : string) :
  (0 <= n <= 99)%Z -> (0 <= m <= 99)%Z ->
  pad2 n ++ s = pad2 m ++ t -> n = m /\ s = t.
Proof.
  intros Hn Hm E. apply append_eq_same_length in E.
  - destruct E as [E ->]. split; [now apply pad2_inj | reflexivity].
  - now rewrite !pad2_length.
Qed.

(** Two calendar times with one snapshot name are one time: snapshots
    taken in different seconds never share a directory. *)
Theorem getTimestamp_inj (a b : LocalTime) :
  validTime a = true -> validTime b = true ->
  getTimestamp a = getTimestamp b -> a = b.
Proof.
  intros Va Vb E. apply validTime_bounds in Va, Vb.
  rewrite !getTimestamp_pad2 in E. apply append_cancel_l in E.
  apply pad2_split in E; try tauto. destruct E as [Emo E].
  apply pad2_split in E; try tauto. destruct E as [Ed E].
  apply Number_toString_span in E; try reflexivity. destruct E as [Ey E].
  apply (append_cancel_l "_") in E.
  apply pad2_split in E; try tauto. destruct E as [Eh E].
  apply pad2_split in E; try tauto. destruct E as [Emi E].
  apply pad2_inj in E; try tauto.
  destruct a, b; cbn [getFullYear getMonth getDate getHours getMinutes
                      getSeconds] in *.
  f_equal; lia.
Qed.

Lemma getTimestamp_inj_witness :
  {| getFullYear := 2025; getMonth := 9; getDate := 28;
     getHours := 2; getMinutes := 38; getSeconds := 11 |} = testDate.
Proof.
  apply getTimestamp_inj; reflexivity.
Defined.


(* ================================================================== *)
(** ** The snapshot that is restored *)

Lemma nameLe_refl (a : string) : nameLe a a.
Proof. unfold nameLe, String.leb. now rewrite compare_refl. Qed.

Lemma nameLe_total (a b : string) : nameLe a b \/ nameLe b a.
Proof. apply String.leb_total. Qed.

Lemma ascii_compare_Lt (x y : ascii) :
  Ascii.compare x y = Lt <-> (N_of_ascii x < N_of_ascii y)%N.
Proof. unfold Ascii.compare. apply N.compare_lt_iff. Qed.

Lemma ascii_compare_Gt (x y : ascii) :
  Ascii.compare x y = Gt <-> (N_of_ascii y < N_of_ascii x)%N.
Proof. unfold Ascii.compare. apply N.compare_gt_iff. Qed.

Lemma nameLe_trans (a : string) : forall b c,
  nameLe a b -> nameLe b c -> nameLe a c.
Proof.
  unfold nameLe, String.leb.
  induction a as [|x a IH]; intros [|y b] [|z c]; simpl; try congruence.
  intros Hab Hbc.
  destruct (Ascii.compare x y) eqn:Cxy; try discriminate;
    destruct (Ascii.compare y z) eqn:Cyz; try discriminate.
  - apply Ascii.compare_eq_iff in Cxy, Cyz. subst.
    rewrite ascii_compare_refl. now apply (IH b c).
  - apply Ascii.compare_eq_iff in Cxy. subst. now rewrite Cyz.
  - apply Ascii.compare_eq_iff in Cyz. subst. now rewrite Cxy.
  - apply ascii_compare_Lt in Cxy. apply ascii_compare_Lt in Cyz.
    assert (Ascii.compare x z = Lt) as ->
      by (apply ascii_compare_Lt; now apply (N.lt_trans _ (N_of_ascii y))).
    reflexivity.
Qed.

Lemma insertSorted_In (x y : string) (l : list string) :
  In y (insertSorted x l) <-> y = x \/ In y l.
Proof.
  induction l as [|a l IH]; simpl; [intuition|].
  destruct (String.leb x a); simpl; [intuition|].
  rewrite IH. intuition.
Qed.

Lemma sort_In (y : string) (l : list string) : In y (sort l) <-> In y l.
Proof.
  induction l as [|a l IH]; simpl; [tauto|].
  rewrite insertSorted_In, IH. intuition.
Qed.

Lemma insertSorted_ascending (x : string) (l : list string) :
  ascending l -> ascending (insertSorted x l).
Proof.
  induction l as [|a l IH]; simpl; intro H; [now split|].
  destruct H as [Ha Hl]. destruct (String.leb x a) eqn:E; simpl.
  - repeat split; try assumption.
    intros y [<-|Hy]; [exact E|].
    apply (nameLe_trans x a y); [exact E | now apply Ha].
  - split; [|now apply IH].
    intros y Hy. apply insertSorted_In in Hy. destruct Hy as [->|Hy].
    + destruct (nameLe_total x a) as [L|L]; [|assumption].
      unfold nameLe in L. congruence.
    + now apply Ha.
Qed.

Lemma sort_ascending (l : list string) : ascending (sort l).
Proof.
  induction l as [|a l IH]; simpl; [exact I|].
  now apply insertSorted_ascending.
Qed.

Lemma last_greatest (l : list string) (d : string) :
  ascending l -> l <> [] ->
  In (last l d) l /\ forall y, In y l -> nameLe y (last l d).
Proof.
  induction l as [|a l IH]; intros H Hne; [now destruct Hne|].
  destruct H as [Ha Hl]. destruct l as [|b l].
  - simpl. split; [now left|]. intros y [<-|[]]. apply nameLe_refl.
  - destruct (IH Hl) as [Hin Hmax]; [discriminate|].
    change (last (a :: b :: l) d) with (last (b :: l) d).
    split; [now right|].
    intros y [<-|Hy]; [now apply Ha | now apply Hmax].
Qed.

Lemma backupDirsOf_In (entries : list Dirent) (n : string) :
  In n (backupDirsOf entries) <->
  exists e, In e entries /\ isDirectory e = true /\
            startsWith "backup_" (name e) = true /\ name e = n.
Proof.
  unfold backupDirsOf. rewrite in_map_iff. split.
  - intros [e [Hn He]]. apply filter_In in He. destruct He as [He Hp].
    apply andb_true_iff in Hp. exists e. tauto.
  - intros [e [He [Hd [Hp Hn]]]]. exists e. split; [assumption|].
    apply filter_In. split; [assumption|]. now rewrite Hd, Hp.
Qed.

(** Among the entries of the root, [loadBackup] restores from the
    directory with the snapshot prefix whose name is the greatest in
    code-unit order: it announces that directory and runs the loop
    over its files.  Entries that are not directories, or do not carry
    the prefix, are never chosen. *)
Theorem loadBackup_restores_greatest_name env baseDir db entries :
  fs_readdir env (orDefault env baseDir) = Resolved entries ->
  backupDirsOf entries <> [] ->
  exists chosen,
    (exists e, In e entries /\ isDirectory e = true /\
               startsWith "backup_" (name e) = true /\ name e = chosen) /\
    (forall e, In e entries -> isDirectory e = true ->
               startsWith "backup_" (name e) = true ->
               nameLe (name e) chosen) /\
    hd_error (trace (Part000.loadBackup env baseDir db))
      = Some (ConsoleLog ("Loading latest backup: "
                            ++ path_join (orDefault env baseDir) chosen)) /\
    forall files,
      fs_readdir env (path_join (orDefault env baseDir) chosen) = Resolved files ->
      trace (Part000.loadBackup env baseDir db)
        = ConsoleLog ("Loading latest backup: "
                        ++ path_join (orDefault env baseDir) chosen)
            :: trace (Part000.forFiles env
                        (path_join (orDefault env baseDir) chosen)
                        (map name files) db).
Proof.
  intros Hroot Hsome.
  exists (last (sort (backupDirsOf entries)) EmptyString).
  destruct (last_greatest (sort (backupDirsOf entries)) EmptyString)
    as [Hin Hmax].
  { apply sort_ascending. }
  { intro E. destruct (backupDirsOf entries) as [|n l] eqn:B;
      [now destruct Hsome|].
    assert (In n (sort (n :: l))) as Hn by (apply sort_In; now left).
    rewrite E in Hn. destruct Hn. }
  repeat split.
  - apply backupDirsOf_In. now apply sort_In.
  - intros e He Hd Hp. apply Hmax. apply sort_In. apply backupDirsOf_In.
    exists e. tauto.
  - unfold Part000.loadBackup. rewrite Hroot.
    destruct (backupDirsOf entries) as [|n l] eqn:B; [now destruct Hsome|].
    cbn [List.length Nat.eqb].
    destruct (fs_readdir env (path_join _ _)); reflexivity.
  - intros files Hfiles. unfold Part000.loadBackup. rewrite Hroot.
    destruct (backupDirsOf entries) as [|n l] eqn:B; [now destruct Hsome|].
    cbn [List.length Nat.eqb]. rewrite Hfiles. reflexivity.
Qed.

Lemma loadBackup_restores_greatest_name_witness :
  exists chosen,
    (forall e, In e twoYears -> isDirectory e = true ->
               startsWith "backup_" (name e) = true ->
               nameLe (name e) chosen) /\
    hd_error (trace (Part000.loadBackup (mockEnv twoYears (Resolved [johnDoe 25]))
                       (Some mockBaseDir) mockDb))
      = Some (ConsoleLog ("Loading latest backup: "
                            ++ path_join mockBaseDir chosen)).
Proof.
  destruct (loadBackup_restores_greatest_name
              (mockEnv twoYears (Resolved [johnDoe 25])) (Some mockBaseDir)
              mockDb twoYears) as [chosen [_ [Hmax [Hlog _]]]].
  - reflexivity.
  - discriminate.
  - exists chosen. split; assumption.
Defined.

(* ================================================================== *)
(** ** The three classifications *)

(** An imported document is classified for update when the first live
    document under its identifier is another document, whatever the
    difference (a value, a field more or less, the order of the
    fields), and then only. *)
Theorem toUpdate_exactly newData existingData d :
  In d (Part000.toUpdate newData existingData) <->
  In d newData /\
  exists m, Part000.findMatch existingData d = Some m /\ m <> d.
Proof.
  rewrite toUpdate_In. split; intros [Hd [m [Hm Hne]]];
    (split; [assumption|]); exists m; (split; [assumption|]).
  - intros ->. now apply Hne.
  - intro E. apply Hne. now apply stringifyDoc_inj.
Qed.

Lemma toUpdate_listed newData existingData u i :
  i <> EmptyString ->
  In u (Part000.toUpdate newData existingData) ->
  idString u = Some i ->
  In (Some i) (idsOf newData) /\ In (Some i) (idsOf existingData).
Proof.
  intros Hi Hu Hid. apply toUpdate_In in Hu. destruct Hu as [HuN [m [Hm _]]].
  apply findMatch_some in Hm. destruct Hm as [Hm Hidm]. split.
  - now apply (in_idsOf newData u).
  - apply (in_idsOf existingData m); congruence.
Qed.

(** Under a non-empty identifier the three classifications exclude
    each other: when a document under it is to be inserted, none is to
    be updated or deleted, and when one is to be updated, none is to be
    deleted. *)
Theorem classifications_exclude_each_other newData existingData i :
  i <> EmptyString ->
  (filter (hasId i) (Part000.toInsert newData existingData) <> [] ->
     filter (hasId i) (Part000.toUpdate newData existingData) = [] /\
     filter (hasId i) (Part000.toDelete newData existingData) = []) /\
  (filter (hasId i) (Part000.toUpdate newData existingData) <> [] ->
     filter (hasId i) (Part000.toDelete newData existingData) = []).
Proof.
  intro Hi.
  assert (forall l : list doc, filter (hasId i) l <> [] ->
            exists d, In d l /\ idString d = Some i) as Hex.
  { intros l H. destruct (filter (hasId i) l) as [|d r] eqn:F;
      [now destruct H|].
    assert (In d (filter (hasId i) l)) as Hd by (rewrite F; now left).
    apply filter_In in Hd. destruct Hd as [Hd Hid].
    exists d. split; [assumption | now apply hasId_eq]. }
  split.
  - intro Hins. apply Hex in Hins. destruct Hins as [d [Hd Hid]].
    apply toInsert_In in Hd. destruct Hd as [HdN Hnot]. rewrite Hid in Hnot.
    split; apply filter_all_false; intros x Hx;
      destruct (hasId i x) eqn:Hx'; try reflexivity; exfalso;
      apply hasId_eq in Hx'.
    + apply Hnot. now apply (toUpdate_listed newData existingData x i).
    + apply toDelete_In in Hx. destruct Hx as [_ Hx]. apply Hx.
      rewrite Hx'. now apply (in_idsOf newData d).
  - intro Hupd. apply Hex in Hupd. destruct Hupd as [u [Hu Hid]].
    apply filter_all_false. intros x Hx.
    destruct (hasId i x) eqn:Hx'; try reflexivity. exfalso.
    apply hasId_eq in Hx'. apply toDelete_In in Hx. destruct Hx as [_ Hx].
    apply Hx. rewrite Hx'.
    now apply (toUpdate_listed newData existingData u i).
Qed.

Lemma classifications_exclude_each_other_witness :
  filter (hasId "2")
    (Part000.toUpdate [johnDoe 26; janeSmith] [johnDoe 25; maryJones]) = [] /\
  filter (hasId "2")
    (Part000.toDelete [johnDoe 26; janeSmith] [johnDoe 25; maryJones]) = [].
Proof.
  apply (classifications_exclude_each_other
           [johnDoe 26; janeSmith] [johnDoe 25; maryJones] "2");
    discriminate.
Defined.

(* ================================================================== *)
(** ** Empty sides *)

Lemma matchesIn_own_id (d : doc) (l : list doc) :
  In d l -> matchesIn (map doc_id l) d = true.
Proof.
  intro H. unfold matchesIn. apply existsb_exists. exists (doc_id d).
  split; [now apply in_map | apply idMatches_refl].
Qed.

(** An empty snapshot of a collection empties the collection: every
    live document is to be deleted, none is inserted or updated, and
    served by the store the pass leaves no document. *)
Theorem empty_snapshot_empties_collection env coll existingData :
  Part000.toInsert [] existingData = [] /\
  Part000.toUpdate [] existingData = [] /\
  Part000.toDelete [] existingData = existingData /\
  filter isWrite (Part000.reconcile env coll [] existingData)
    = match existingData with
      | [] => []
      | _ :: _ => [DeleteMany coll (map doc_id existingData)]
      end /\
  runOn (Part000.reconcile env coll [] existingData) existingData = [].
Proof.
  assert (Part000.toDelete [] existingData = existingData) as Hd.
  { unfold Part000.toDelete. simpl. apply filter_true. }
  repeat split; try reflexivity; try assumption.
  { unfold Part000.reconcile. rewrite Hd.
    now destruct existingData. }
  rewrite runOn_reconcile. unfold afterBulk. rewrite Hd.
  change (Part000.toInsert [] existingData) with (@nil doc).
  change (Part000.toUpdate [] existingData) with (@nil doc).
  rewrite app_nil_r. cbn [map runOn fold_left].
  apply filter_all_false. intros d Hin. now rewrite matchesIn_own_id.
Qed.

(** Into an empty collection the whole snapshot is inserted, in the
    order of the file: nothing is updated or deleted, and served by the
    store the pass leaves the imported documents. *)
Theorem empty_collection_receives_snapshot env coll newData :
  Part000.toInsert newData [] = newData /\
  Part000.toUpdate newData [] = [] /\
  Part000.toDelete newData [] = [] /\
  filter isWrite (Part000.reconcile env coll newData [])
    = match newData with
      | [] => []
      | _ :: _ => [InsertMany coll newData]
      end /\
  runOn (Part000.reconcile env coll newData []) [] = newData.
Proof.
  assert (Part000.toInsert newData [] = newData) as Hi.
  { unfold Part000.toInsert. simpl. apply filter_true. }
  assert (Part000.toUpdate newData [] = []) as Hu.
  { apply filter_all_false. reflexivity. }
  repeat split; try reflexivity; try assumption.
  { unfold Part000.reconcile. rewrite Hi, Hu.
    now destruct newData. }
  rewrite runOn_reconcile, Hu. unfold afterBulk. rewrite Hi.
  change (Part000.toDelete newData []) with (@nil doc).
  cbn [map runOn fold_left app]. apply filter_keep_all.
Qed.

(* ================================================================== *)
(** ** What a pass leaves behind *)

(** A snapshot that holds the live documents, each under a non-empty
    identifier of its own, finds the collection up to date: the pass
    logs so and calls nothing on the store. *)
Theorem same_documents_up_to_date env coll data :
  wellKeyed data ->
  Part000.reconcile env coll data data
  = [ConsoleLog ("Collection '" ++ coll ++ "' is already up-to-date")].
Proof.
  intro H. apply settled_pass_is_idle; try assumption.
  - auto.
  - intros e He. now apply wellKeyed_listed.
  - apply H.
Qed.

Lemma wellKeyed_two (a b : doc) :
  Boolean (idString a) = true -> Boolean (idString b) = true ->
  idString a <> idString b -> wellKeyed [a; b].
Proof.
  intros Ha Hb Hne. split.
  - repeat constructor; simpl; intuition congruence.
  - intros d [<-|[<-|[]]]; assumption.
Qed.

Lemma same_documents_up_to_date_witness :
  Part000.reconcile (mockEnv mockRoot (Resolved [])) "patients"
    [johnDoe 25; janeSmith] [johnDoe 25; janeSmith]
  = [ConsoleLog "Collection 'patients' is already up-to-date"].
Proof.
  apply (same_documents_up_to_date (mockEnv mockRoot (Resolved []))
           "patients" [johnDoe 25; janeSmith]).
  apply wellKeyed_two; [reflexivity | reflexivity | discriminate].
Defined.

Lemma doc_id_setField (k : string) (v : value) (d : doc) :
  k <> "_id" -> doc_id (setField k v d) = doc_id d.
Proof.
  intro H. unfold doc_id. rewrite getField_setField.
  destruct (String.eqb_spec k "_id"); [contradiction | reflexivity].
Qed.

Lemma doc_id_applySet (fields : doc) : forall d,
  (forall kv, In kv fields -> fst kv <> "_id") ->
  doc_id (applySet fields d) = doc_id d.
Proof.
  induction fields as [|[k v] fields IH]; intros d H; [reflexivity|].
  change (applySet ((k, v) :: fields) d)
    with (applySet fields (setField k v d)).
  rewrite IH by (intros kv Hkv; apply H; now right).
  apply doc_id_setField. apply (H (k, v)). now left.
Qed.

Lemma doc_id_applySet_rest (u d : doc) :
  doc_id (applySet (restFields u) d) = doc_id d.
Proof.
  apply doc_id_applySet. intros kv Hkv. unfold restFields in Hkv.
  apply filter_In in Hkv. destruct Hkv as [_ Hkv].
  apply negb_true_iff in Hkv. now apply String.eqb_neq.
Qed.

Lemma updateFirst_doc_ids (p : doc -> bool) (f : doc -> doc) (l : list doc) :
  (forall d, doc_id (f d) = doc_id d) ->
  map doc_id (updateFirst p f l) = map doc_id l.
Proof.
  intro H. induction l as [|d l IH]; simpl; [reflexivity|].
  destruct (p d); simpl; [now rewrite H | now rewrite IH].
Qed.

(** The targeted updates of a pass, whether or not they find their
    document, add no live document, remove none and leave every
    identifier where it is. *)
Theorem updates_keep_identifiers env coll (us docs : list doc) :
  map doc_id (runOn (map (Part000.updateOf env coll) us) docs)
  = map doc_id docs.
Proof.
  revert docs. induction us as [|u us IH]; intro docs; [reflexivity|].
  change (runOn (map (Part000.updateOf env coll) (u :: us)) docs)
    with (runOn (map (Part000.updateOf env coll) us)
            (updateFirst (matchesQuery (Part000.queryIdOf env (doc_id u)))
               (applySet (restFields u)) docs)).
  rewrite IH. apply updateFirst_doc_ids. intro d. apply doc_id_applySet_rest.
Qed.

Lemma updateFirst_idStrings (p : doc -> bool) (u : doc) (l : list doc) :
  map idString (updateFirst p (applySet (restFields u)) l) = map idString l.
Proof.
  induction l as [|d l IH]; simpl; [reflexivity|].
  destruct (p d); simpl; [|now rewrite IH].
  unfold idString. now rewrite doc_id_applySet_rest.
Qed.

Lemma runOn_updates_idStrings env coll (us : list doc) : forall docs,
  map idString (runOn (map (Part000.updateOf env coll) us) docs)
  = map idString docs.
Proof.
  induction us as [|u us IH]; intro docs; [reflexivity|].
  change (runOn (map (Part000.updateOf env coll) (u :: us)) docs)
    with (runOn (map (Part000.updateOf env coll) us)
            (updateFirst (matchesQuery (Part000.queryIdOf env (doc_id u)))
               (applySet (restFields u)) docs)).
  rewrite IH. apply updateFirst_idStrings.
Qed.

(** After the bulk writes the live identifiers are those of the
    snapshot. *)
Lemma afterBulk_covers newData existingData d :
  wellKeyed newData -> wellKeyed existingData ->
  In d newData ->
  In (idString d) (idsOf (afterBulk newData existingData)).
Proof.
  intros HN HE Hd.
  destruct (includes (idsOf existingData) (idString d)) eqn:C.
  - apply includes_In, idsOf_In in C. destruct C as [Hb [e [He Hid]]].
    apply idsOf_In. split; [assumption|]. exists e. split; [|assumption].
    apply afterBulk_In; [assumption|]. left. split; [assumption|].
    rewrite Hid. now apply wellKeyed_listed.
  - apply idsOf_In. split; [now apply HN|]. exists d. split; [|reflexivity].
    apply afterBulk_In; [assumption|]. right. apply toInsert_In.
    split; [assumption|]. rewrite <- includes_In. now rewrite C.
Qed.

(** With non-empty identifiers, unique within each set, one pass
    settles which documents exist: whatever its updates achieve, a
    second pass over what it left inserts nothing and deletes
    nothing. *)
Theorem second_pass_has_no_bulk_write env coll newData existingData :
  wellKeyed newData ->
  wellKeyed existingData ->
  filter isBulkWrite
    (Part000.reconcile env coll newData
       (runOn (Part000.reconcile env coll newData existingData) existingData))
  = [].
Proof.
  intros HN HE.
  set (after := runOn (Part000.reconcile env coll newData existingData)
                  existingData).
  assert (map idString after = map idString (afterBulk newData existingData))
    as Hids.
  { unfold after. rewrite runOn_reconcile. apply runOn_updates_idStrings. }
  assert (Part000.toInsert newData after = []) as Hi.
  { apply filter_all_false. intros d Hd. apply negb_false_iff.
    apply includes_In. unfold idsOf. rewrite Hids.
    now apply afterBulk_covers. }
  assert (Part000.toDelete newData after = []) as Hd.
  { apply filter_all_false. intros e He. apply negb_false_iff.
    apply includes_In. apply (in_map idString) in He. rewrite Hids in He.
    apply in_map_iff in He. destruct He as [e' [<- He']].
    now apply (afterBulk_listed newData existingData). }
  unfold Part000.reconcile. rewrite Hi, Hd.
  destruct (Part000.toUpdate newData after) as [|u us]; [reflexivity|].
  simpl. rewrite filter_app, filter_map_updateOf by reflexivity.
  reflexivity.
Qed.

Lemma second_pass_has_no_bulk_write_witness :
  filter isBulkWrite
    (Part000.reconcile (mockEnv mockRoot (Resolved [])) "patients"
       [johnDoe 25; janeSmith]
       (runOn (Part000.reconcile (mockEnv mockRoot (Resolved [])) "patients"
                 [johnDoe 25; janeSmith] [johnWithNickname; maryJones])
              [johnWithNickname; maryJones]))
  = [].
Proof.
  apply (second_pass_has_no_bulk_write (mockEnv mockRoot (Resolved []))
           "patients" [johnDoe 25; janeSmith] [johnWithNickname; maryJones]);
    apply wellKeyed_two; reflexivity || discriminate.
Defined.

(** The earlier revision, which only inserts and deletes, is
    idempotent on sets with non-empty identifiers, unique within each
    set: its second pass finds the collection up to date. *)
Theorem earlier_revision_second_pass_is_idle coll newData existingData :
  wellKeyed newData ->
  wellKeyed existingData ->
  ScriptsBackup.reconcile coll newData
    (runOn (ScriptsBackup.reconcile coll newData existingData) existingData)
  = [ConsoleLog ("Collection '" ++ coll ++ "' is already up-to-date")].
Proof.
  intros HN HE.
  assert (runOn (ScriptsBackup.reconcile coll newData existingData) existingData
          = afterBulk newData existingData) as ->.
  { unfold ScriptsBackup.reconcile, afterBulk. cbv zeta.
    change (ScriptsBackup.toInsert newData existingData)
      with (Part000.toInsert newData existingData).
    change (ScriptsBackup.toDelete newData existingData)
      with (Part000.toDelete newData existingData).
    destruct ((List.length (Part000.toInsert newData existingData) =? 0)%nat
              && (List.length (Part000.toDelete newData existingData) =? 0)%nat)
      eqn:C.
    - apply andb_true_iff in C. destruct C as [Ci Cd].
      apply length_zero_nil in Ci, Cd. rewrite Ci, Cd. simpl.
      now rewrite filter_keep_all, app_nil_r.
    - rewrite !runOn_app, runOn_insert, runOn_delete. reflexivity. }
  assert (ScriptsBackup.toInsert newData (afterBulk newData existingData) = [])
    as Hi.
  { apply filter_all_false. intros d Hd. apply negb_false_iff.
    apply includes_In. now apply afterBulk_covers. }
  assert (ScriptsBackup.toDelete newData (afterBulk newData existingData) = [])
    as Hd.
  { apply filter_all_false. intros e He. apply negb_false_iff.
    apply includes_In. now apply (afterBulk_listed newData existingData). }
  unfold ScriptsBackup.reconcile. now rewrite Hi, Hd.
Qed.

Lemma earlier_revision_second_pass_is_idle_witness :
  ScriptsBackup.reconcile "patients" [johnDoe 25; janeSmith]
    (runOn (ScriptsBackup.reconcile "patients" [johnDoe 25; janeSmith]
              [johnWithNickname; maryJones])
           [johnWithNickname; maryJones])
  = [ConsoleLog "Collection 'patients' is already up-to-date"].
Proof.
  apply (earlier_revision_second_pass_is_idle "patients"
           [johnDoe 25; janeSmith] [johnWithNickname; maryJones]);
    apply wellKeyed_two; reflexivity || discriminate.
Defined.

(** Restore does what it is for: when identifiers are non-empty and
    unique within each set and each targeted update turns the live
    document it is issued for into the imported one, the collection
    holds after the pass the documents of the snapshot and no other,
    each once. *)
Theorem pass_leaves_the_snapshot env coll newData existingData :
  wellKeyed newData ->
  wellKeyed existingData ->
  (forall d m,
     In d (Part000.toUpdate newData existingData) ->
     Part000.findMatch existingData d = Some m ->
     applyToDocs (Part000.updateOf env coll d) [m] = [d]) ->
  (forall d,
     In d (runOn (Part000.reconcile env coll newData existingData) existingData)
     <-> In d newData) /\
  NoDup (runOn (Part000.reconcile env coll newData existingData) existingData).
Proof.
  intros HN HE Hreach.
  destruct (runOn_reconcile_settles env coll newData existingData HN HE Hreach)
    as [A [B C]].
  split; [|now apply NoDup_map_inv in C].
  intro d. split; [|apply A].
  intro Hd. pose proof (B d Hd) as Hl. apply idsOf_In in Hl.
  destruct Hl as [_ [d' [Hd' Hid]]].
  assert (d' = d) as <-; [|assumption].
  exact (same_id_same_doc _ d' d C (A d' Hd') Hd Hid).
Qed.

Lemma pass_leaves_the_snapshot_witness :
  (forall d,
     In d (runOn (Part000.reconcile (mockEnv mockRoot (Resolved [])) "patients"
                    [johnDoe 26; janeSmith] [johnDoe 25; maryJones])
                 [johnDoe 25; maryJones])
     <-> In d [johnDoe 26; janeSmith]) /\
  NoDup (runOn (Part000.reconcile (mockEnv mockRoot (Resolved [])) "patients"
                  [johnDoe 26; janeSmith] [johnDoe 25; maryJones])
               [johnDoe 25; maryJones]).
Proof.
  apply (pass_leaves_the_snapshot (mockEnv mockRoot (Resolved [])) "patients"
           [johnDoe 26; janeSmith] [johnDoe 25; maryJones]).
  - apply wellKeyed_two; reflexivity || discriminate.
  - apply wellKeyed_two; reflexivity || discriminate.
  - intros d m [<-|[]] Hm. vm_compute in Hm. injection Hm as <-. reflexivity.
Defined.

(* ================================================================== *)
(** ** A whole run *)

Lemma applyEvent_other (db : Store) (e : event) (c : string) :
  collectionOf e <> Some c -> applyEvent db e c = db c.
Proof.
  unfold applyEvent, setCollection. intro H.
  destruct (collectionOf e) as [c'|]; [|reflexivity].
  destruct (String.eqb_spec c c') as [->|_]; [now destruct H | reflexivity].
Qed.

Lemma applyEvents_other (es : list event) : forall (db : Store) (c : string),
  (forall ev, In ev es -> collectionOf ev <> Some c) ->
  applyEvents db es c = db c.
Proof.
  induction es as [|e es IH]; intros db c H; [reflexivity|].
  change (applyEvents db (e :: es)) with (applyEvents (applyEvent db e) es).
  rewrite IH by (intros ev Hev; apply H; now right).
  apply applyEvent_other. apply H. now left.
Qed.

Lemma applyEvent_own (db : Store) (e : event) (c : string) :
  collectionOf e = Some c \/ collectionOf e = None ->
  applyEvent db e c = applyToDocs e (db c).
Proof.
  unfold applyEvent, setCollection. intros [H|H]; rewrite H.
  - now rewrite String.eqb_refl.
  - destruct e; try discriminate. reflexivity.
Qed.

Lemma applyEvents_own (es : list event) : forall (db : Store) (c : string),
  (forall ev, In ev es -> collectionOf ev = Some c \/ collectionOf ev = None) ->
  applyEvents db es c = runOn es (db c).
Proof.
  induction es as [|e es IH]; intros db c H; [reflexivity|].
  change (applyEvents db (e :: es)) with (applyEvents (applyEvent db e) es).
  change (runOn (e :: es) (db c)) with (runOn es (applyToDocs e (db c))).
  rewrite IH by (intros ev Hev; apply H; now right).
  now rewrite applyEvent_own by (apply H; now left).
Qed.

Lemma pass_events_own env coll newData existingData ev :
  In ev (Find coll :: Part000.reconcile env coll newData existingData) ->
  collectionOf ev = Some coll \/ collectionOf ev = None.
Proof.
  intros [<-|H]; [now left|].
  destruct (collectionOf ev) as [c|] eqn:E; [left | now right].
  now rewrite (reconcile_collection _ _ _ _ _ _ H E).
Qed.

(** The loop leaves alone every collection that none of its [.json]
    files names. *)
Lemma forFiles_other env backupDir files : forall db c,
  (forall f, In f files -> path_extname f = ".json" ->
             path_basename f ".json" <> c) ->
  finalDb (Part000.forFiles env backupDir files db) c = db c.
Proof.
  induction files as [|file files IH]; intros db c H; [reflexivity|].
  cbn [Part000.forFiles].
  destruct (String.eqb_spec (path_extname file) ".json") as [Hext|Hext];
    cbn [negb].
  - destruct (fs_readJson env (path_join backupDir file)) as [newData|e];
      [|reflexivity].
    cbn [finalDb]. rewrite IH by (intros f Hf; apply H; now right).
    apply applyEvents_other. intros ev Hev E.
    apply pass_events_own in Hev. destruct Hev as [Hev|Hev]; [|congruence].
    rewrite Hev in E. injection E as E.
    now apply (H file (or_introl eq_refl) Hext).
  - apply IH. intros f Hf. apply H. now right.
Qed.

(** Files without the extension [.json] are passed over: the loop does
    what it does on the [.json] files alone, in their order. *)
Theorem forFiles_skips_other_files env backupDir files db :
  Part000.forFiles env backupDir files db
  = Part000.forFiles env backupDir
      (filter (fun f => path_extname f =? ".json") files) db.
Proof.
  revert db. induction files as [|file files IH]; intro db; [reflexivity|].
  cbn [Part000.forFiles filter].
  destruct (path_extname file =? ".json") eqn:E; cbn [negb].
  - cbn [Part000.forFiles]. rewrite E. cbn [negb].
    destruct (fs_readJson env (path_join backupDir file)); [|reflexivity].
    now rewrite IH.
  - apply IH.
Qed.

(** A run changes no collection but those that a [.json] file of the
    restored snapshot names. *)
Theorem loadBackup_leaves_other_collections
    env baseDir db entries files c :
  fs_readdir env (orDefault env baseDir) = Resolved entries ->
  fs_readdir env (path_join (orDefault env baseDir)
                    (last (sort (backupDirsOf entries)) EmptyString))
    = Resolved files ->
  (forall f, In f (map name files) -> path_extname f = ".json" ->
             path_basename f ".json" <> c) ->
  finalDb (Part000.loadBackup env baseDir db) c = db c.
Proof.
  intros Hroot Hdir Hc. unfold Part000.loadBackup. rewrite Hroot.
  destruct (List.length (backupDirsOf entries) =? 0)%nat; [reflexivity|].
  rewrite Hdir. cbn [finalDb]. now apply forFiles_other.
Qed.

Lemma loadBackup_leaves_other_collections_witness :
  finalDb (Part000.loadBackup (mockEnv mockRoot (Resolved [johnDoe 26]))
             (Some mockBaseDir) mockDb) "invoices"
  = mockDb "invoices".
Proof.
  apply (loadBackup_leaves_other_collections
           (mockEnv mockRoot (Resolved [johnDoe 26])) (Some mockBaseDir) mockDb
           mockRoot
           [ {| name := "patients.json"; isDirectory := false |};
             {| name := "appointments.json"; isDirectory := false |} ]
           "invoices"); try reflexivity.
  intros f [<-|[<-|[]]] _; discriminate.
Defined.

Lemma forFiles_own env backupDir pre file post db newData :
  path_extname file = ".json" ->
  fs_readJson env (path_join backupDir file) = Resolved newData ->
  result (Part000.forFiles env backupDir pre db) = Resolved tt ->
  ~ In file pre -> ~ In file post ->
  finalDb (Part000.forFiles env backupDir (pre ++ file :: post)%list db)
          (path_basename file ".json")
  = runOn (Part000.reconcile env (path_basename file ".json") newData
             (db (path_basename file ".json")))
          (db (path_basename file ".json")).
Proof.
  intros Hext Hread Hpre Hfresh Hfresh'.
  assert (forall l, ~ In file l ->
            forall f, In f l -> path_extname f = ".json" ->
                      path_basename f ".json" <> path_basename file ".json")
    as Hother.
  { intros l Hl f Hf He E. apply Hl.
    now rewrite (path_basename_json_inj file f Hext He (eq_sym E)). }
  rewrite forFiles_app by assumption. cbn [finalDb Part000.forFiles].
  rewrite Hext, Hread. rewrite String.eqb_refl. cbn [negb finalDb].
  rewrite forFiles_other by (now apply Hother).
  rewrite applyEvents_own by (apply pass_events_own).
  rewrite forFiles_other by (now apply Hother).
  reflexivity.
Qed.

Lemma forFiles_resolves env backupDir files : forall db,
  (forall f, In f files -> path_extname f = ".json" ->
             exists data, fs_readJson env (path_join backupDir f) = Resolved data) ->
  result (Part000.forFiles env backupDir files db) = Resolved tt.
Proof.
  induction files as [|file files IH]; intros db H; [reflexivity|].
  cbn [Part000.forFiles].
  destruct (String.eqb_spec (path_extname file) ".json") as [Hext|Hext];
    cbn [negb].
  - destruct (H file (or_introl eq_refl) Hext) as [data ->]. cbn [result].
    apply IH. intros f Hf. apply H. now right.
  - apply IH. intros f Hf. apply H. now right.
Qed.

(** When the names of a snapshot directory are distinct and each
    [.json] file can be read, the run resolves and each collection is
    restored from its own file, against the documents it held when the
    run began: what the other files do does not reach it. *)
Theorem collection_restored_from_its_own_file
    env backupDir files db file newData :
  NoDup files ->
  (forall f, In f files -> path_extname f = ".json" ->
             exists data, fs_readJson env (path_join backupDir f) = Resolved data) ->
  In file files ->
  path_extname file = ".json" ->
  fs_readJson env (path_join backupDir file) = Resolved newData ->
  result (Part000.forFiles env backupDir files db) = Resolved tt /\
  finalDb (Part000.forFiles env backupDir files db) (path_basename file ".json")
  = runOn (Part000.reconcile env (path_basename file ".json") newData
             (db (path_basename file ".json")))
          (db (path_basename file ".json")).
Proof.
  intros Hnd Hall Hin Hext Hread. split; [now apply forFiles_resolves|].
  destruct (in_split _ _ Hin) as [pre [post ->]].
  apply NoDup_remove_2 in Hnd.
  apply forFiles_own; try assumption.
  - apply forFiles_resolves. intros f Hf. apply Hall. apply in_or_app. now left.
  - intro H. apply Hnd. apply in_or_app. now left.
  - intro H. apply Hnd. apply in_or_app. now right.
Qed.

Lemma collection_restored_from_its_own_file_witness :
  finalDb (Part000.forFiles (mockEnv mockRoot (Resolved [johnDoe 26]))
             "C:/temp/backups/backup_10282025_023811"
             ["appointments.json"; "patients.json"; "notes.txt"] mockDb)
          "patients"
  = [johnDoe 26].
Proof.
  apply (collection_restored_from_its_own_file
           (mockEnv mockRoot (Resolved [johnDoe 26]))
           "C:/temp/backups/backup_10282025_023811"
           ["appointments.json"; "patients.json"; "notes.txt"] mockDb
           "patients.json" [johnDoe 26]); try reflexivity.
  - repeat constructor; simpl; intuition discriminate.
  - intros f [<-|[<-|[<-|[]]]] E; try discriminate E; eexists; reflexivity.
  - right. now left.
Defined.

(** When a directory cannot be listed, be it the root or the snapshot
    chosen in it, the restore rejects with the error of the listing and
    has called nothing on the store. *)
Theorem unlistable_directory_rejects env baseDir db e :
  fs_readdir env (orDefault env baseDir) = Rejected e \/
  (exists entries,
     fs_readdir env (orDefault env baseDir) = Resolved entries /\
     backupDirsOf entries <> [] /\
     fs_readdir env (path_join (orDefault env baseDir)
                       (last (sort (backupDirsOf entries)) EmptyString))
       = Rejected e) ->
  result (Part000.loadBackup env baseDir db) = Rejected e /\
  (forall ev, In ev (trace (Part000.loadBackup env baseDir db)) ->
              collectionOf ev = None) /\
  finalDb (Part000.loadBackup env baseDir db) = db.
Proof.
  unfold Part000.loadBackup. intros [H|[entries [H [Hne Hdir]]]]; rewrite H.
  - repeat split. intros ev [].
  - destruct (backupDirsOf entries) as [|b bs] eqn:B; [now destruct Hne|].
    cbn [List.length Nat.eqb]. rewrite Hdir. repeat split.
    intros ev [<-|[]]. reflexivity.
Qed.

Lemma unlistable_directory_rejects_witness :
  result (Part000.loadBackup
            {| fs_readdir := fun d =>
                 if d =? mockBaseDir then Resolved mockRoot
                 else Rejected "EACCES";
               fs_readJson := fun _ => Resolved [];
               ObjectId_isValid := fun _ => false;
               path_resolve_backup := "/srv/app/backup" |}
            (Some mockBaseDir) mockDb)
  = Rejected "EACCES".
Proof.
  apply (unlistable_directory_rejects
           {| fs_readdir := fun d =>
                if d =? mockBaseDir then Resolved mockRoot
                else Rejected "EACCES";
              fs_readJson := fun _ => Resolved [];
              ObjectId_isValid := fun _ => false;
              path_resolve_backup := "/srv/app/backup" |}
           (Some mockBaseDir) mockDb "EACCES").
  right. exists mockRoot. repeat split. discriminate.
Defined.

(** A run over files that hold what the store holds, collection by
    collection, changes nothing. *)
Lemma forFiles_same_documents env backupDir (db : Store) files : forall db',
  (forall c, db' c = db c) ->
  (forall f, In f files -> path_extname f = ".json" ->
     fs_readJson env (path_join backupDir f)
       = Resolved (db (path_basename f ".json")) /\
     wellKeyed (db (path_basename f ".json"))) ->
  result (Part000.forFiles env backupDir files db') = Resolved tt /\
  filter isWrite (trace (Part000.forFiles env backupDir files db')) = [] /\
  forall c, finalDb (Part000.forFiles env backupDir files db') c = db c.
Proof.
  induction files as [|file files IH]; intros db' Hdb H.
  - repeat split. assumption.
  - cbn [Part000.forFiles].
    destruct (String.eqb_spec (path_extname file) ".json") as [Hext|Hext];
      cbn [negb]; [|apply IH; [assumption | intros f Hf; apply H; now right]].
    destruct (H file (or_introl eq_refl) Hext) as [-> Hkeyed].
    cbn [result finalDb trace]. rewrite Hdb.
    rewrite settled_pass_is_idle;
      [| assumption | auto | intros e He; now apply wellKeyed_listed
       | apply Hkeyed].
    apply IH; [|intros f Hf; apply H; now right].
    intro c. cbn [applyEvents fold_left applyEvent collectionOf applyToDocs].
    unfold setCollection.
    destruct (String.eqb_spec c (path_basename file ".json")) as [->|_];
      apply Hdb.
Qed.

(* ================================================================== *)
(** ** Taking a snapshot *)

Lemma length_append (a b : string) :
  String.length (a ++ b) = (String.length a + String.length b)%nat.
Proof. induction a as [|x a IH]; simpl; [reflexivity | now rewrite IH]. Qed.

Lemma append_cancel_r (a : string) : forall b s, a ++ s = b ++ s -> a = b.
Proof.
  induction a as [|x a IH]; intros [|y b] s H.
  - reflexivity.
  - apply (f_equal String.length) in H. simpl in H.
    rewrite length_append in H. lia.
  - apply (f_equal String.length) in H. simpl in H.
    rewrite length_append in H. lia.
  - simpl in H. injection H as -> H. now rewrite (IH b s H).
Qed.

(** The file that a save writes for a collection is one that the
    restore reads, and for that collection. *)
Lemma path_extname_json (coll : string) :
  coll <> EmptyString -> path_extname (coll ++ ".json") = ".json".
Proof.
  intro H. unfold path_extname.
  assert (list_ascii_of_string (coll ++ ".json")
          = (list_ascii_of_string coll ++ list_ascii_of_string ".json")%list)
    as ->.
  { clear H. induction coll as [|c coll IH]; simpl; [reflexivity|].
    now rewrite IH. }
  rewrite rev_app_distr.
  destruct (List.rev (list_ascii_of_string coll)) as [|c r] eqn:E.
  - destruct coll; [now destruct H|]. simpl in E.
    now apply app_eq_nil in E.
  - reflexivity.
Qed.

Lemma path_basename_of_json (coll : string) :
  path_extname (coll ++ ".json") = ".json" ->
  path_basename (coll ++ ".json") ".json" = coll.
Proof.
  intro H. apply path_basename_json in H.
  symmetry. now apply (append_cancel_r _ _ ".json").
Qed.

Lemma forCollections_resolved senv backupDir db (collections : list string) :
  (forall c, In c collections ->
     fs_writeJson senv (path_join backupDir (c ++ ".json")) (db c) = Resolved tt) ->
  fst (forCollections senv backupDir collections db) = Resolved tt /\
  filter isWriteJson (snd (forCollections senv backupDir collections db))
  = map (fileOf backupDir db) collections.
Proof.
  induction collections as [|coll rest IH]; intro H; [now split|].
  cbn [forCollections]. rewrite (H coll (or_introl eq_refl)).
  destruct IH as [IH1 IH2]; [intros c Hc; apply H; now right|].
  cbn [fst snd filter isWriteJson changesStore]. rewrite IH2. now split.
Qed.

Lemma forCollections_rejected senv backupDir db pre coll post e :
  (forall c, In c pre ->
     fs_writeJson senv (path_join backupDir (c ++ ".json")) (db c) = Resolved tt) ->
  fs_writeJson senv (path_join backupDir (coll ++ ".json")) (db coll)
    = Rejected e ->
  fst (forCollections senv backupDir (pre ++ coll :: post)%list db) = Rejected e /\
  filter isWriteJson
    (snd (forCollections senv backupDir (pre ++ coll :: post)%list db))
  = map (fileOf backupDir db) (pre ++ [coll])%list.
Proof.
  intros Hpre Hcoll. induction pre as [|c pre IH].
  - change ([] ++ coll :: post)%list with (coll :: post).
    cbn [forCollections]. rewrite Hcoll. now split.
  - change ((c :: pre) ++ coll :: post)%list with (c :: pre ++ coll :: post)%list.
    change ((c :: pre) ++ [coll])%list with (c :: pre ++ [coll])%list.
    cbn [forCollections]. rewrite (Hpre c (or_introl eq_refl)).
    destruct IH as [IH1 IH2]; [intros c' Hc'; apply Hpre; now right|].
    cbn [fst snd filter isWriteJson map]. rewrite IH2. now split.
Qed.

Lemma forCollections_reads_only senv backupDir db (collections : list string) :
  filter changesStore (snd (forCollections senv backupDir collections db)) = [].
Proof.
  induction collections as [|coll rest IH]; [reflexivity|].
  cbn [forCollections].
  destruct (fs_writeJson senv (path_join backupDir (coll ++ ".json")) (db coll));
    [|reflexivity].
  cbn [snd filter changesStore isWrite]. exact IH.
Qed.

(** When the directory can be made and every file written, a save
    resolves to the directory named after the clock under the base
    directory, and has written there one file for each collection, in
    the order of the listing, holding the documents that the collection
    holds. *)
Theorem saveBackup_writes_each_collection senv baseDir db :
  fs_ensureDir senv (path_join baseDir (getTimestamp (clock senv)))
    = Resolved tt ->
  (forall c, In c (listCollections senv) ->
     fs_writeJson senv
       (path_join (path_join baseDir (getTimestamp (clock senv))) (c ++ ".json"))
       (db c) = Resolved tt) ->
  returned (saveBackup senv baseDir db)
    = Resolved (path_join baseDir (getTimestamp (clock senv))) /\
  filter isWriteJson (saveTrace (saveBackup senv baseDir db))
    = map (fileOf (path_join baseDir (getTimestamp (clock senv))) db)
          (listCollections senv).
Proof.
  intros Hdir Hall. unfold saveBackup. rewrite Hdir.
  destruct (forCollections_resolved senv _ db _ Hall) as [-> H].
  cbn [returned saveTrace filter isWriteJson]. split; [reflexivity|].
  rewrite filter_app, H. cbn [filter isWriteJson]. apply app_nil_r.
Qed.

Lemma saveBackup_writes_each_collection_witness :
  returned (saveBackup (mockSaveEnv (Resolved tt) EmptyString) mockBaseDir mockDb)
    = Resolved "C:/temp/backups/backup_10282025_023811" /\
  filter isWriteJson
    (saveTrace (saveBackup (mockSaveEnv (Resolved tt) EmptyString)
                  mockBaseDir mockDb))
    = [ WriteJson "C:/temp/backups/backup_10282025_023811/patients.json"
          [johnDoe 25];
        WriteJson "C:/temp/backups/backup_10282025_023811/appointments.json"
          [appointmentA1] ].
Proof.
  apply (saveBackup_writes_each_collection
           (mockSaveEnv (Resolved tt) EmptyString) mockBaseDir mockDb).
  - reflexivity.
  - intros c [<-|[<-|[]]]; reflexivity.
Defined.

(** A write that fails stops the save: it rejects with the error of
    the write, the collections listed before have their files, and no
    file is written for a collection listed after. *)
Theorem failed_write_stops_the_save senv baseDir db pre coll post e :
  fs_ensureDir senv (path_join baseDir (getTimestamp (clock senv)))
    = Resolved tt ->
  listCollections senv = (pre ++ coll :: post)%list ->
  (forall c, In c pre ->
     fs_writeJson senv
       (path_join (path_join baseDir (getTimestamp (clock senv))) (c ++ ".json"))
       (db c) = Resolved tt) ->
  fs_writeJson senv
    (path_join (path_join baseDir (getTimestamp (clock senv))) (coll ++ ".json"))
    (db coll) = Rejected e ->
  returned (saveBackup senv baseDir db) = Rejected e /\
  filter isWriteJson (saveTrace (saveBackup senv baseDir db))
    = map (fileOf (path_join baseDir (getTimestamp (clock senv))) db)
          (pre ++ [coll])%list.
Proof.
  intros Hdir Hlist Hpre Hcoll. unfold saveBackup. rewrite Hdir, Hlist.
  destruct (forCollections_rejected senv _ db pre coll post e Hpre Hcoll)
    as [-> H].
  cbn [returned saveTrace filter isWriteJson]. now split.
Qed.

Lemma failed_write_stops_the_save_witness :
  returned (saveBackup
              (mockSaveEnv (Resolved tt)
                 "C:/temp/backups/backup_10282025_023811/patients.json")
              mockBaseDir mockDb)
    = Rejected "Disk full" /\
  filter isWriteJson
    (saveTrace (saveBackup
                  (mockSaveEnv (Resolved tt)
                     "C:/temp/backups/backup_10282025_023811/patients.json")
                  mockBaseDir mockDb))
    = [ WriteJson "C:/temp/backups/backup_10282025_023811/patients.json"
          [johnDoe 25] ].
Proof.
  apply (failed_write_stops_the_save
           (mockSaveEnv (Resolved tt)
              "C:/temp/backups/backup_10282025_023811/patients.json")
           mockBaseDir mockDb [] "patients" ["appointments"] "Disk full").
  - reflexivity.
  - reflexivity.
  - intros c [].
  - reflexivity.
Defined.

(** A save reads the store and never changes it: whatever the disk
    does, no call of a save inserts, deletes or updates a document. *)
Theorem saveBackup_never_changes_the_store senv baseDir db :
  filter changesStore (saveTrace (saveBackup senv baseDir db)) = [].
Proof.
  unfold saveBackup.
  destruct (fs_ensureDir senv (path_join baseDir (getTimestamp (clock senv))));
    [|reflexivity].
  pose proof (forCollections_reads_only senv
                (path_join baseDir (getTimestamp (clock senv))) db
                (listCollections senv)) as H.
  destruct (fst (forCollections senv _ (listCollections senv) db));
    cbn [saveTrace filter changesStore].
  - rewrite filter_app, H. reflexivity.
  - exact H.
Qed.

(* ================================================================== *)
(** ** A snapshot taken, then restored *)

Lemma forCollections_In senv backupDir db (collections : list string) c :
  (exists u, fst (forCollections senv backupDir collections db) = Resolved u) ->
  In c collections ->
  In (fileOf backupDir db c) (snd (forCollections senv backupDir collections db)).
Proof.
  induction collections as [|coll rest IH]; intros [u Hu] Hc; [destruct Hc|].
  cbn [forCollections] in *.
  destruct (fs_writeJson senv (path_join backupDir (coll ++ ".json")) (db coll));
    [|discriminate Hu].
  cbn [fst snd] in *. destruct Hc as [->|Hc].
  - right. now left.
  - right. right. right. apply IH; [now exists u | assumption].
Qed.

Lemma saveBackup_In senv baseDir db c :
  (exists dir, returned (saveBackup senv baseDir db) = Resolved dir) ->
  In c (listCollections senv) ->
  In (fileOf (path_join baseDir (getTimestamp (clock senv))) db c)
     (saveTrace (saveBackup senv baseDir db)).
Proof.
  unfold saveBackup. intros [dir H] Hc.
  destruct (fs_ensureDir senv (path_join baseDir (getTimestamp (clock senv))));
    [|discriminate H].
  pose proof (forCollections_In senv
                (path_join baseDir (getTimestamp (clock senv))) db
                (listCollections senv) c) as Hin.
  destruct (fst (forCollections senv _ (listCollections senv) db)) as [u|e];
    [|discriminate H].
  cbn [saveTrace]. right. right. apply in_or_app. left.
  apply Hin; [now exists u | assumption].
Qed.

Lemma loadBackup_at env baseDir db entries files :
  baseDir <> EmptyString ->
  fs_readdir env baseDir = Resolved entries ->
  last (sort (backupDirsOf entries)) EmptyString <> EmptyString ->
  fs_readdir env
    (path_join baseDir (last (sort (backupDirsOf entries)) EmptyString))
    = Resolved files ->
  let r := Part000.forFiles env
             (path_join baseDir (last (sort (backupDirsOf entries)) EmptyString))
             (map name files) db in
  result (Part000.loadBackup env (Some baseDir) db) = result r /\
  finalDb (Part000.loadBackup env (Some baseDir) db) = finalDb r /\
  filter isWrite (trace (Part000.loadBackup env (Some baseDir) db))
    = filter isWrite (trace r).
Proof.
  intros Hbase Hroot Hlast Hfiles. unfold Part000.loadBackup.
  assert (orDefault env (Some baseDir) = baseDir) as ->.
  { destruct baseDir; [now destruct Hbase | reflexivity]. }
  rewrite Hroot.
  destruct (backupDirsOf entries) as [|b bs] eqn:B; [now destruct Hlast|].
  cbn [List.length Nat.eqb]. rewrite Hfiles. repeat split.
Qed.

Lemma wellKeyed_one (d : doc) : Boolean (idString d) = true -> wellKeyed [d].
Proof.
  intro H. split.
  - repeat constructor. intros [].
  - intros d' [<-|[]]. assumption.
Qed.

Section RoundTrip.
Variable senv : SaveCollaborators.
Variable env : Collaborators.
Variable baseDir : string.
Variable saved : Store.
Variable entries : list Dirent.
Variable files : list Dirent.

(** The save went through. *)
Hypothesis Hsaved :
  exists dir, returned (saveBackup senv baseDir saved) = Resolved dir.

(** The restore is given the base directory of the save, and the
    snapshot just taken is the one it chooses there. *)
Hypothesis Hbase : baseDir <> EmptyString.
Hypothesis Hroot : fs_readdir env baseDir = Resolved entries.
Hypothesis Hlatest :
  last (sort (backupDirsOf entries)) EmptyString = getTimestamp (clock senv).

(** The disk gives back what the save put on it: the [.json] files of
    the snapshot directory are files of the save, and each reads as
    written. *)
Hypothesis Hfiles :
  fs_readdir env (path_join baseDir (getTimestamp (clock senv)))
    = Resolved files.
Hypothesis Hnames :
  forall f, In f (map name files) -> path_extname f = ".json" ->
            exists c, In c (listCollections senv) /\ f = c ++ ".json".
Hypothesis Hdisk :
  forall p data,
    In (WriteJson p data) (saveTrace (saveBackup senv baseDir saved)) ->
    fs_readJson env p = Resolved data.

Lemma snapshot_file_reads f :
  In f (map name files) -> path_extname f = ".json" ->
  In (path_basename f ".json") (listCollections senv) /\
  fs_readJson env (path_join (path_join baseDir (getTimestamp (clock senv))) f)
    = Resolved (saved (path_basename f ".json")).
Proof.
  intros Hf Hext. destruct (Hnames f Hf Hext) as [c [Hc ->]].
  rewrite (path_basename_of_json c Hext). split; [assumption|].
  apply Hdisk. now apply (saveBackup_In senv baseDir saved c).
Qed.

Lemma loadBackup_of_snapshot (db : Store) :
  let r := Part000.forFiles env
             (path_join baseDir (getTimestamp (clock senv)))
             (map name files) db in
  result (Part000.loadBackup env (Some baseDir) db) = result r /\
  finalDb (Part000.loadBackup env (Some baseDir) db) = finalDb r /\
  filter isWrite (trace (Part000.loadBackup env (Some baseDir) db))
    = filter isWrite (trace r).
Proof.
  rewrite <- Hlatest. apply loadBackup_at; try assumption.
  - rewrite Hlatest. discriminate.
  - now rewrite Hlatest.
Qed.

(** A snapshot restored into the store it was taken from, each
    collection keyed by non-empty identifiers of its own: the restore
    resolves, calls nothing that changes the store, and every
    collection holds what it held. *)
Theorem restore_of_fresh_snapshot_changes_nothing :
  (forall c, In c (listCollections senv) -> wellKeyed (saved c)) ->
  result (Part000.loadBackup env (Some baseDir) saved) = Resolved tt /\
  filter isWrite (trace (Part000.loadBackup env (Some baseDir) saved)) = [] /\
  forall c, finalDb (Part000.loadBackup env (Some baseDir) saved) c = saved c.
Proof.
  intro Hkeyed.
  destruct (loadBackup_of_snapshot saved) as [-> [-> ->]].
  apply forFiles_same_documents; [reflexivity|].
  intros f Hf Hext. destruct (snapshot_file_reads f Hf Hext) as [Hc Hread].
  split; [assumption | now apply Hkeyed].
Qed.

(** A snapshot restored into a store that has changed since: when
    identifiers are non-empty and unique within each collection, then
    and now, and each targeted update turns the live document it is
    issued for into the saved one, the restore resolves and every
    collection that has its file in the snapshot holds the saved
    documents again and no other, each once. *)
Theorem restore_brings_back_the_snapshot (live : Store) :
  NoDup (map name files) ->
  (forall c, In c (listCollections senv) ->
             wellKeyed (saved c) /\ wellKeyed (live c)) ->
  (forall c d m,
     In c (listCollections senv) ->
     In d (Part000.toUpdate (saved c) (live c)) ->
     Part000.findMatch (live c) d = Some m ->
     applyToDocs (Part000.updateOf env c d) [m] = [d]) ->
  result (Part000.loadBackup env (Some baseDir) live) = Resolved tt /\
  forall c,
    c <> EmptyString ->
    In (c ++ ".json") (map name files) ->
    (forall d, In d (finalDb (Part000.loadBackup env (Some baseDir) live) c)
               <-> In d (saved c)) /\
    NoDup (finalDb (Part000.loadBackup env (Some baseDir) live) c).
Proof.
  intros Hnd Hkeyed Hreach.
  destruct (loadBackup_of_snapshot live) as [-> [-> _]].
  assert (forall f, In f (map name files) -> path_extname f = ".json" ->
            exists data,
              fs_readJson env
                (path_join (path_join baseDir (getTimestamp (clock senv))) f)
              = Resolved data) as Hall.
  { intros f Hf Hext. destruct (snapshot_file_reads f Hf Hext) as [_ Hread].
    eexists. exact Hread. }
  split; [now apply forFiles_resolves|].
  intros c Hc Hin.
  pose proof (path_extname_json c Hc) as Hext.
  destruct (snapshot_file_reads _ Hin Hext) as [Hlisted Hread].
  rewrite (path_basename_of_json c Hext) in Hlisted, Hread.
  destruct (in_split _ _ Hin) as [pre [post Hsplit]].
  rewrite Hsplit in Hnd, Hall |- *. apply NoDup_remove_2 in Hnd.
  pose proof (forFiles_own env
                (path_join baseDir (getTimestamp (clock senv)))
                pre (c ++ ".json") post live (saved c) Hext Hread) as Hown.
  rewrite (path_basename_of_json c Hext) in Hown. rewrite Hown.
  - destruct (Hkeyed c Hlisted) as [HN HE].
    destruct (runOn_reconcile_settles env c (saved c) (live c) HN HE
                (fun d m => Hreach c d m Hlisted)) as [A [B C]].
    split; [|now apply NoDup_map_inv in C].
    intro d. split; [|apply A].
    intro Hd. pose proof (B d Hd) as Hl. apply idsOf_In in Hl.
    destruct Hl as [_ [d' [Hd' Hid]]].
    assert (d' = d) as <-; [|assumption].
    exact (same_id_same_doc _ d' d C (A d' Hd') Hd Hid).
  - apply forFiles_resolves. intros f Hf. apply Hall. apply in_or_app. now left.
  - intro H. apply Hnd. apply in_or_app. now left.
  - intro H. apply Hnd. apply in_or_app. now right.
Qed.

End RoundTrip.

Lemma restore_of_fresh_snapshot_changes_nothing_witness :
  result (Part000.loadBackup (mockEnv mockRoot (Resolved [johnDoe 25]))
            (Some mockBaseDir) mockDb) = Resolved tt /\
  filter isWrite
    (trace (Part000.loadBackup (mockEnv mockRoot (Resolved [johnDoe 25]))
              (Some mockBaseDir) mockDb)) = [] /\
  forall c,
    finalDb (Part000.loadBackup (mockEnv mockRoot (Resolved [johnDoe 25]))
               (Some mockBaseDir) mockDb) c
    = mockDb c.
Proof.
  apply (restore_of_fresh_snapshot_changes_nothing
           (mockSaveEnv (Resolved tt) EmptyString)
           (mockEnv mockRoot (Resolved [johnDoe 25]))
           mockBaseDir mockDb mockRoot mockFiles).
  - eexists. reflexivity.
  - discriminate.
  - reflexivity.
  - reflexivity.
  - reflexivity.
  - intros f [<-|[<-|[]]] _;
      [exists "patients" | exists "appointments"]; simpl; auto.
  - intros p data H. vm_compute in H.
    repeat (destruct H as [H|H];
            [first [discriminate H | injection H as <- <-; reflexivity]|]).
    destruct H.
  - intros c [<-|[<-|[]]]; apply wellKeyed_one; reflexivity.
Defined.

Lemma restore_brings_back_the_snapshot_witness :
  result (Part000.loadBackup (mockEnv mockRoot (Resolved [johnDoe 25]))
            (Some mockBaseDir) changedDb) = Resolved tt /\
  forall c,
    c <> EmptyString ->
    In (c ++ ".json") (map name mockFiles) ->
    (forall d,
       In d (finalDb (Part000.loadBackup
                        (mockEnv mockRoot (Resolved [johnDoe 25]))
                        (Some mockBaseDir) changedDb) c)
       <-> In d (mockDb c)) /\
    NoDup (finalDb (Part000.loadBackup
                      (mockEnv mockRoot (Resolved [johnDoe 25]))
                      (Some mockBaseDir) changedDb) c).
Proof.
  apply (restore_brings_back_the_snapshot
           (mockSaveEnv (Resolved tt) EmptyString)
           (mockEnv mockRoot (Resolved [johnDoe 25]))
           mockBaseDir mockDb mockRoot mockFiles).
  - eexists. reflexivity.
  - discriminate.
  - reflexivity.
  - reflexivity.
  - reflexivity.
  - intros f [<-|[<-|[]]] _;
      [exists "patients" | exists "appointments"]; simpl; auto.
  - intros p data H. vm_compute in H.
    repeat (destruct H as [H|H];
            [first [discriminate H | injection H as <- <-; reflexivity]|]).
    destruct H.
  - repeat constructor; simpl; intuition discriminate.
  - intros c [<-|[<-|[]]]; split;
      first [ apply wellKeyed_one; reflexivity
            | apply wellKeyed_two; reflexivity || discriminate ].
  - intros c d m [<-|[<-|[]]] Hd Hm; vm_compute in Hd.
    + destruct Hd as [<-|[]]. vm_compute in Hm. injection Hm as <-. reflexivity.
    + destruct Hd.
Defined.

(* ================================================================== *)
(** ** The latest snapshot of a year *)

Lemma ltb_not_leb (a b : string) :
  String.ltb a b = true -> String.leb b a = true -> False.
Proof.
  unfold String.ltb, String.leb. rewrite (String.compare_antisym a b).
  destruct (String.compare b a); simpl; intros H1 H2;
    discriminate H1 || discriminate H2.
Qed.

(** When the snapshot directories of the root were all taken within
    one calendar year, the restore does load the latest of them. *)
Theorem latest_of_the_year_is_restored env baseDir db entries ts t :
  fs_readdir env (orDefault env baseDir) = Resolved entries ->
  backupDirsOf entries = map getTimestamp ts ->
  In t ts ->
  (forall a, In a ts ->
     validTime a = true /\ getFullYear a = getFullYear t /\
     (a = t \/ earlier a t = true)) ->
  hd_error (trace (Part000.loadBackup env baseDir db))
  = Some (ConsoleLog ("Loading latest backup: "
                        ++ path_join (orDefault env baseDir) (getTimestamp t))).
Proof.
  intros Hroot Hdirs Ht Hall.
  assert (last (sort (backupDirsOf entries)) EmptyString = getTimestamp t)
    as Hlast.
  { rewrite Hdirs.
    assert (In (getTimestamp t) (sort (map getTimestamp ts))) as Hin
      by (apply sort_In; now apply in_map).
    destruct (last_greatest (sort (map getTimestamp ts)) EmptyString)
      as [Hl Hmax]; [apply sort_ascending | now intros E; rewrite E in Hin |].
    apply sort_In, in_map_iff in Hl. destruct Hl as [a [Ha Hin']].
    destruct (Hall a Hin') as [Va [Ya [->|Ea]]]; [now symmetry|].
    destruct (Hall t Ht) as [Vt _].
    exfalso. apply (ltb_not_leb (getTimestamp a) (getTimestamp t)).
    - now apply same_year_names_in_order.
    - rewrite Ha. now apply Hmax. }
  unfold Part000.loadBackup. rewrite Hroot.
  destruct (backupDirsOf entries) as [|b bs] eqn:B.
  - destruct ts; [destruct Ht | discriminate Hdirs].
  - cbn [List.length Nat.eqb]. rewrite Hlast.
    now destruct (fs_readdir env
                    (path_join (orDefault env baseDir) (getTimestamp t))).
Qed.

Lemma latest_of_the_year_is_restored_witness :
  hd_error
    (trace (Part000.loadBackup
              (mockEnv [ {| name := getTimestamp newYearsEve;
                            isDirectory := true |};
                         {| name := getTimestamp testDate2024;
                            isDirectory := true |} ]
                       (Resolved []))
              (Some mockBaseDir) mockDb))
  = Some (ConsoleLog
            "Loading latest backup: C:/temp/backups/backup_12312024_235959").
Proof.
  apply (latest_of_the_year_is_restored
           (mockEnv [ {| name := getTimestamp newYearsEve;
                         isDirectory := true |};
                      {| name := getTimestamp testDate2024;
                         isDirectory := true |} ]
                    (Resolved []))
           (Some mockBaseDir) mockDb
           [ {| name := getTimestamp newYearsEve; isDirectory := true |};
             {| name := getTimestamp testDate2024; isDirectory := true |} ]
           [newYearsEve; testDate2024] newYearsEve).
  - reflexivity.
  - reflexivity.
  - now left.
  - intros a [<-|[<-|[]]]; repeat split; auto.
Defined.
